(** * Skyline plugin stores: [BatchSizeStore] and [INNPVStore]

    A shallow embedding of [plugin/lib/stores/batchsize_store.js] and
    [plugin/lib/stores/innpv_store.js], and the properties of the batch-size
    prediction engine stated over it.

    Layout: the JavaScript number model, the helpers of [lib/utils], the two
    stores, and then the theorems. *)

From Stdlib Require Import QArith Qround Qminmax Lqa ZArith.
From Stdlib Require Import String Ascii List DecimalString Floats.
From stdpp Require Import gmap list.

Local Open Scope Z_scope.

(* ================================================================== *)
(** ** JavaScript numbers *)
(* ================================================================== *)

(** A JavaScript Number. The special values, the comparisons and
    [Math.min], [Math.max], [Math.round] are those of the language. The
    finite values are rationals and [+], [-], [*], [/] on them are exact: the
    rounding, the overflow and the underflow of binary64 are left out, so a
    statement over [num] is one about the program only where it does not rest
    on the exact value of a finite result (an order between results that
    rounding keeps, a case of a comparison, a field that is copied). [Fin 0]
    is the positive zero: the only divisors the store computes are a model's
    slope and a difference [1000 - slope * t], which is [+0] whenever it is
    zero. The helpers whose exact results matter are also given over the
    binary64 numbers themselves, in [Binary64]. *)
Inductive num : Type :=
  | Fin (q : Q)
  | PInf
  | NInf
  | NaN.

(** What [Math.round] returns, and what a protobuf list of integers holds:
    an integer, an infinity or NaN. *)
Inductive integral : Type :=
  | Int (z : Z)
  | IPInf
  | INInf
  | INaN.

Module JS.

Definition Qltb (p q : Q) : bool := negb (Qle_bool q p).

Definition of_Z (z : Z) : num := Fin (inject_Z z).

Definition neg (a : num) : num :=
  match a with
  | Fin q => Fin (- q)
  | PInf => NInf
  | NInf => PInf
  | NaN => NaN
  end.

(** [a + b] *)
Definition add (a b : num) : num :=
  match a, b with
  | NaN, _ | _, NaN => NaN
  | Fin p, Fin q => Fin (p + q)
  | PInf, NInf | NInf, PInf => NaN
  | PInf, _ | _, PInf => PInf
  | NInf, _ | _, NInf => NInf
  end.

(** [a - b] *)
Definition sub (a b : num) : num := add a (neg b).

(** An infinity of the sign of [q] times the sign of [inf]; [0 * inf] is
    NaN. *)
Definition scale_inf (inf : num) (q : Q) : num :=
  if Qeq_bool q 0 then NaN
  else if Qltb q 0 then neg inf else inf.

(** [a * b] *)
Definition mul (a b : num) : num :=
  match a, b with
  | NaN, _ | _, NaN => NaN
  | Fin p, Fin q => Fin (p * q)
  | Fin p, inf => scale_inf inf p
  | inf, Fin q => scale_inf inf q
  | PInf, PInf | NInf, NInf => PInf
  | PInf, NInf | NInf, PInf => NInf
  end.

(** [a / b]: a finite quotient, and IEEE's results when the divisor is
    zero or an operand is infinite. *)
Definition div (a b : num) : num :=
  match a, b with
  | NaN, _ | _, NaN => NaN
  | Fin p, Fin q =>
      if Qeq_bool q 0 then
        if Qeq_bool p 0 then NaN
        else if Qltb p 0 then NInf else PInf
      else Fin (p / q)
  | Fin _, _ => Fin 0
  | inf, Fin q => if Qltb q 0 then neg inf else inf
  | _, _ => NaN
  end.

(** [a < b]; false as soon as an operand is NaN. *)
Definition ltb (a b : num) : bool :=
  match a, b with
  | NaN, _ | _, NaN => false
  | Fin p, Fin q => Qltb p q
  | NInf, NInf => false
  | NInf, _ => true
  | _, PInf => match a with PInf => false | _ => true end
  | _, _ => false
  end.

(** [a <= b] *)
Definition leb (a b : num) : bool :=
  match a, b with
  | NaN, _ | _, NaN => false
  | Fin p, Fin q => Qle_bool p q
  | NInf, _ => true
  | _, PInf => true
  | _, _ => false
  end.

(** [a == b] on numbers (and [===]): numeric equality, NaN equal to
    nothing. *)
Definition eqb (a b : num) : bool :=
  match a, b with
  | Fin p, Fin q => Qeq_bool p q
  | PInf, PInf | NInf, NInf => true
  | _, _ => false
  end.

(** [Math.min(a, b)] *)
Definition Math_min (a b : num) : num :=
  match a, b with
  | NaN, _ | _, NaN => NaN
  | _, _ => if leb a b then a else b
  end.

(** [Math.max(a, b)] *)
Definition Math_max (a b : num) : num :=
  match a, b with
  | NaN, _ | _, NaN => NaN
  | _, _ => if leb a b then b else a
  end.

(** [Math.floor(a)] *)
Definition Math_floor (a : num) : num :=
  match a with
  | Fin q => of_Z (Qfloor q)
  | _ => a
  end.

(** [Math.round(a)]: the nearest integer, a tie going up. *)
Definition Math_round (a : num) : integral :=
  match a with
  | Fin q => Int (Qfloor (q + (1 # 2)))
  | PInf => IPInf
  | NInf => INInf
  | NaN => INaN
  end.

(** The decimal digits of an integer. *)
Definition decimal (z : Z) : string := NilZero.string_of_int (Z.to_int z).

(** The binary64 number nearest to the positive integer [z], a tie going to
    the even significand; [None] beyond the largest finite number. *)
Definition round_to_binary64 (z : Z) : option Z :=
  if z <? 2 ^ 53 then Some z
  else
    let shift := Z.log2 z - 52 in
    let q := Z.shiftr z shift in
    let r := z - Z.shiftl q shift in
    let half := Z.shiftl 1 (shift - 1) in
    let q' := if orb (half <? r) (andb (r =? half) (Z.odd q))
              then q + 1 else q in
    let v := Z.shiftl q' shift in
    if v <? 2 ^ 1024 then Some v else None.

Definition rounds_to (x c : Z) : bool :=
  match round_to_binary64 c with
  | Some v => v =? x
  | None => false
  end.

(** The multiple of [10 ^ e] that reads back as the number [x], if there is
    one: the nearer of the two around [x], the even one on a tie. *)
Definition candidate (x e : Z) : option Z :=
  let p := 10 ^ e in
  let lo := (x / p) * p in
  let hi := lo + p in
  match rounds_to x lo, rounds_to x hi with
  | true, true =>
      if x - lo <? hi - x then Some lo
      else if hi - x <? x - lo then Some hi
      else if Z.even (x / p) then Some lo else Some hi
  | true, false => Some lo
  | false, true => Some hi
  | false, false => None
  end.

(** The decimal with the fewest significant digits that reads back as [x]:
    the exponents are tried from [e] down. *)
Fixpoint shortest (x : Z) (e : nat) : Z :=
  match candidate x (Z.of_nat e) with
  | Some c => c
  | None => match e with
            | O => x
            | S e' => shortest x e'
            end
  end.

Fixpoint strip_zeros (s : list ascii) : list ascii :=
  match s with
  | "0"%char :: s' => strip_zeros s'
  | _ => s
  end.

(** The digits without the zeros at their end. *)
Definition significant (ds : string) : string :=
  string_of_list_ascii (rev (strip_zeros (rev (list_ascii_of_string ds)))).

(** [Number::toString] of a positive integer: the shortest digits that read
    back as the number, followed by zeros up to 21 digits, and in exponent
    notation from 1e21 on. *)
Definition toString_positive (z : Z) : string :=
  match round_to_binary64 z with
  | None => "Infinity"
  | Some x =>
      let ds := decimal (shortest x (String.length (decimal x) - 1)) in
      let n := String.length ds in
      if Nat.leb n 21 then ds
      else
        match significant ds with
        | String d EmptyString =>
            String d EmptyString ++ "e+" ++ decimal (Z.of_nat n - 1)
        | String d ds' =>
            String d ("." ++ ds') ++ "e+" ++ decimal (Z.of_nat n - 1)
        | EmptyString => ds
        end
  end%string.

(** The string of an integral number, as [Array.prototype.join] produces
    it. *)
Definition toString (v : integral) : string :=
  match v with
  | Int 0 => "0"
  | Int (Zpos p) => toString_positive (Zpos p)
  | Int (Zneg p) => "-" ++ toString_positive (Zpos p)
  | IPInf => "Infinity"
  | INInf => "-Infinity"
  | INaN => "NaN"
  end%string.

(** [xs.join(sep)] on an array of numbers. *)
Definition join (sep : string) (xs : list integral) : string :=
  String.concat sep (List.map toString xs).

(** [ToNumber] of a value that is a number or [null]. *)
Definition ToNumber (v : option num) : num :=
  match v with
  | Some a => a
  | None => Fin 0
  end.

End JS.

(* ================================================================== *)
(** ** [lib/utils] *)
(* ================================================================== *)

(** A linear model of the analysis message: [getCoefficient()] is the
    slope, [getBias()] the intercept. *)
Record LinearModel : Type := {
  slope : Q;
  intercept : Q
}.

(** Modelled from the spec: [evaluateLinearModel] of [lib/utils] is not
    part of the sources; the data model gives
    [value(b) = slope*b + intercept]. *)
Definition evaluateLinearModel (model : LinearModel) (x : num) : num :=
  JS.add (JS.mul (Fin (slope model)) x) (Fin (intercept model)).

(** Modelled from the spec: [getBatchSizeFromUsage] of [lib/utils] is not
    part of the sources; section 4.1 gives
    [batchSize = (targetUsageMb - intercept) / slope], not rounded. *)
Definition getBatchSizeFromUsage (usageModelMb : LinearModel) (usageMb : num) : num :=
  JS.div (JS.sub usageMb (Fin (intercept usageModelMb))) (Fin (slope usageModelMb)).

(** Modelled from the spec: [getBatchSizeFromThroughput] of [lib/utils] is
    not part of the sources; section 4.1 gives
    [batchSize = intercept * targetThroughput / (1000 - slope * targetThroughput)]. *)
Definition getBatchSizeFromThroughput (runtimeModelMs : LinearModel) (throughput : num) : num :=
  JS.div (JS.mul (Fin (intercept runtimeModelMs)) throughput)
         (JS.sub (JS.of_Z 1000) (JS.mul (Fin (slope runtimeModelMs)) throughput)).

(* ================================================================== *)
(** ** The analysis messages *)
(* ================================================================== *)

(** [throughputInfo]: [getRuntimeModelMs()], [getMaxThroughput()],
    [getThroughputLimit()]. *)
Record ThroughputInfo : Type := {
  runtimeModelMs : LinearModel;
  maxThroughput : Q;
  throughputLimit : Q
}.

(** [memoryInfo]: [getUsageModelMb()], [getMaxCapacityMb()]. *)
Record MemoryInfo : Type := {
  usageModelMb : LinearModel;
  maxCapacityMb : Q
}.

(** A position of the annotation: [getLine()], [getColumn()]. *)
Record Position : Type := {
  line : nat;
  column : nat
}.

(** The address of a JavaScript array. *)
Definition loc : Type := nat.

(** [inputInfo]: [getAnnotationStart()], [getAnnotationEnd()], and the
    array that [getInputSize().getValuesList()] hands out: the message's own
    array, not a copy, hence an address. *)
Record InputInfo : Type := {
  annotationStart : Position;
  annotationEnd : Position;
  inputSize : loc
}.

(** Atom's [Range]: its start and end points, each [[row, column]]. *)
Record Range : Type := {
  range_start : nat * nat;
  range_end : nat * nat
}.

(* ================================================================== *)
(** ** [BatchSizeStore] *)
(* ================================================================== *)

(** The fields of the store instance; [None] is [null]. *)
Record BatchSizeStore : Type := {
  _throughputInfo : option ThroughputInfo;
  _memoryInfo : option MemoryInfo;
  _inputInfo : option InputInfo;
  _predictedBatchSize : option num;
  _maxBatchSize : option num;
  _currentAnnotationRange : option Range;
  _currentUndoCheckpoint : option nat
}.

(** What the store does to its surroundings, in the order it does it.

    Modelled from the spec: the text buffer of the editor and
    [BaseStore.notifyChanged] are not part of the sources; section 6 gives
    the text surface (replace the text of a range and return the new range,
    open and group an undo checkpoint) and the payload-free notification of
    the observers. *)
Inductive effect : Type :=
  | CreateCheckpoint (c : nat)
  | SetTextInRange (r : Range) (text : string)
  | GroupChangesSinceCheckpoint (c : option nat)
  | NotifyChanged.

(** The store instance, the arrays it can reach, the effects so far (latest
    last) and the number of checkpoints the buffer has handed out. *)
Record world : Type := {
  store : BatchSizeStore;
  heap : gmap loc (list integral);
  log : list effect;
  checkpoints : nat
}.

(** A call returns a value or throws (a [TypeError], on a [null] receiver
    or on the call of an [undefined] method); either way the world it leaves
    behind is kept. *)
Inductive outcome (A : Type) : Type :=
  | Ok (a : A) (w : world)
  | Throw (w : world).
Arguments Ok {A} a w.
Arguments Throw {A} w.

Definition M (A : Type) : Type := world -> outcome A.

Definition ret {A : Type} (a : A) : M A := fun w => Ok a w.

Definition bind {A B : Type} (m : M A) (k : A -> M B) : M B :=
  fun w =>
    match m w with
    | Ok a w' => k a w'
    | Throw w' => Throw w'
    end.

Definition throw {A : Type} : M A := fun w => Throw w.

Declare Scope js_scope.
Delimit Scope js_scope with js.
Notation "x <- m ;; k" := (bind m (fun x => k))
  (at level 100, m at next level, k at level 200, right associativity) : js_scope.
Notation "m ;; k" := (bind m (fun _ => k))
  (at level 100, k at level 200, right associativity) : js_scope.

(** The world a call leaves behind, returned or thrown. *)
Definition after {A : Type} (o : outcome A) : world :=
  match o with
  | Ok _ w => w
  | Throw w => w
  end.

(** [this.<field>] *)
Definition this {A : Type} (field : BatchSizeStore -> A) : M A :=
  fun w => Ok (field (store w)) w.

(** [o.<method>()] on a value that may be [null]. *)
Definition deref {A : Type} (o : option A) : M A :=
  match o with
  | Some a => ret a
  | None => throw
  end.

Definition with_store (f : BatchSizeStore -> BatchSizeStore) : M unit :=
  fun w => Ok tt {| store := f (store w); heap := heap w; log := log w;
                    checkpoints := checkpoints w |}.

Definition emit (e : effect) : M unit :=
  fun w => Ok tt {| store := store w; heap := heap w; log := log w ++ [e];
                    checkpoints := checkpoints w |}.

(** [this._throughputInfo = v] and the like. *)
Definition set_throughputInfo (v : option ThroughputInfo) : M unit :=
  with_store (fun s =>
    {| _throughputInfo := v; _memoryInfo := _memoryInfo s;
       _inputInfo := _inputInfo s; _predictedBatchSize := _predictedBatchSize s;
       _maxBatchSize := _maxBatchSize s;
       _currentAnnotationRange := _currentAnnotationRange s;
       _currentUndoCheckpoint := _currentUndoCheckpoint s |}).

Definition set_memoryInfo (v : option MemoryInfo) : M unit :=
  with_store (fun s =>
    {| _throughputInfo := _throughputInfo s; _memoryInfo := v;
       _inputInfo := _inputInfo s; _predictedBatchSize := _predictedBatchSize s;
       _maxBatchSize := _maxBatchSize s;
       _currentAnnotationRange := _currentAnnotationRange s;
       _currentUndoCheckpoint := _currentUndoCheckpoint s |}).

Definition set_inputInfo (v : option InputInfo) : M unit :=
  with_store (fun s =>
    {| _throughputInfo := _throughputInfo s; _memoryInfo := _memoryInfo s;
       _inputInfo := v; _predictedBatchSize := _predictedBatchSize s;
       _maxBatchSize := _maxBatchSize s;
       _currentAnnotationRange := _currentAnnotationRange s;
       _currentUndoCheckpoint := _currentUndoCheckpoint s |}).

Definition set_predictedBatchSize (v : option num) : M unit :=
  with_store (fun s =>
    {| _throughputInfo := _throughputInfo s; _memoryInfo := _memoryInfo s;
       _inputInfo := _inputInfo s; _predictedBatchSize := v;
       _maxBatchSize := _maxBatchSize s;
       _currentAnnotationRange := _currentAnnotationRange s;
       _currentUndoCheckpoint := _currentUndoCheckpoint s |}).

Definition set_maxBatchSize (v : option num) : M unit :=
  with_store (fun s =>
    {| _throughputInfo := _throughputInfo s; _memoryInfo := _memoryInfo s;
       _inputInfo := _inputInfo s; _predictedBatchSize := _predictedBatchSize s;
       _maxBatchSize := v;
       _currentAnnotationRange := _currentAnnotationRange s;
       _currentUndoCheckpoint := _currentUndoCheckpoint s |}).

Definition set_currentAnnotationRange (v : option Range) : M unit :=
  with_store (fun s =>
    {| _throughputInfo := _throughputInfo s; _memoryInfo := _memoryInfo s;
       _inputInfo := _inputInfo s; _predictedBatchSize := _predictedBatchSize s;
       _maxBatchSize := _maxBatchSize s;
       _currentAnnotationRange := v;
       _currentUndoCheckpoint := _currentUndoCheckpoint s |}).

Definition set_currentUndoCheckpoint (v : option nat) : M unit :=
  with_store (fun s =>
    {| _throughputInfo := _throughputInfo s; _memoryInfo := _memoryInfo s;
       _inputInfo := _inputInfo s; _predictedBatchSize := _predictedBatchSize s;
       _maxBatchSize := _maxBatchSize s;
       _currentAnnotationRange := _currentAnnotationRange s;
       _currentUndoCheckpoint := v |}).

(** *** Arrays *)

(** Reading the elements of the array at [l]. Every reference a script holds
    is to a live array; an address outside the heap is given the outcome of
    a [null] receiver. *)
Definition read_array (l : loc) : M (list integral) :=
  fun w => match heap w !! l with
           | Some xs => Ok xs w
           | None => Throw w
           end.

(** A new array with the elements [xs], at an address not in use. *)
Definition new_array (xs : list integral) : M loc :=
  fun w => let l := fresh (dom (heap w)) in
           Ok l {| store := store w; heap := <[l := xs]> (heap w); log := log w;
                   checkpoints := checkpoints w |}.

(** [xs.map(x => x)] *)
Definition array_map_id (l : loc) : M loc :=
  (xs <- read_array l ;; new_array (List.map (fun x => x) xs))%js.

(** The elements after [a[0] = v]: the first one replaced, and an empty
    array grown to length one. *)
Definition store_first (v : integral) (xs : list integral) : list integral :=
  match xs with
  | [] => [v]
  | _ :: _ => <[0%nat := v]> xs
  end.

(** [a[0] = v] *)
Definition array_set_first (l : loc) (v : integral) : M unit :=
  fun w => match heap w !! l with
           | Some xs =>
               Ok tt {| store := store w;
                        heap := <[l := store_first v xs]> (heap w);
                        log := log w; checkpoints := checkpoints w |}
           | None => Throw w
           end.

(** *** The [INNPVStore] that the store imports *)

(** The methods of the [INNPVStore] instance: the ones that the class of
    [innpv_store.js] defines. *)
Definition INNPVStore_methods : list string :=
  ["getAppState"; "setAppState"; "addListener"; "removeListener";
   "_notifyChanged"]%string.

(** [INNPVStore.<name>(...)], called for what it does to the editor. A name
    that is no method of the instance is [undefined], and the call of
    [undefined] throws a [TypeError]. *)
Definition INNPVStore_call (name : string) : M unit :=
  if existsb (String.eqb name) INNPVStore_methods then ret tt else throw.

(** *** The editor's buffer *)

(** [buffer.createCheckpoint()] *)
Definition createCheckpoint : M nat :=
  fun w => let c := checkpoints w in
           Ok c {| store := store w; heap := heap w;
                   log := log w ++ [CreateCheckpoint c];
                   checkpoints := S c |}.

(** [buffer.setTextInRange(range, text)]: the range the new text occupies,
    for a text of one line; a [null] range is refused. *)
Definition setTextInRange (range : option Range) (text : string) : M Range :=
  (r <- deref range ;;
   emit (SetTextInRange r text) ;;
   ret {| range_start := range_start r;
          range_end := (fst (range_start r),
                        (snd (range_start r) + String.length text)%nat) |})%js.

(** [this.notifyChanged()] *)
Definition notifyChanged : M unit := emit NotifyChanged.

(** *** The methods *)

(** The store as the constructor leaves it. *)
Definition constructor : BatchSizeStore :=
  {| _throughputInfo := None; _memoryInfo := None; _inputInfo := None;
     _predictedBatchSize := None; _maxBatchSize := None;
     _currentAnnotationRange := None; _currentUndoCheckpoint := None |}.

Definition receivedAnalysis (throughputInfo : ThroughputInfo)
    (memoryInfo : MemoryInfo) (inputInfo : InputInfo) : M unit :=
  (set_throughputInfo (Some throughputInfo) ;;
   set_memoryInfo (Some memoryInfo) ;;
   set_inputInfo (Some inputInfo) ;;
   set_predictedBatchSize None ;;
   mi <- bind (this _memoryInfo) deref ;;
   set_maxBatchSize
     (Some (getBatchSizeFromUsage (usageModelMb mi) (Fin (maxCapacityMb mi)))) ;;
   ii <- bind (this _inputInfo) deref ;;
   let startPoint := annotationStart ii in
   let endPoint := annotationEnd ii in
   set_currentAnnotationRange
     (Some {| range_start := (line startPoint, column startPoint);
              range_end := (line endPoint, column endPoint) |}) ;;
   INNPVStore_call "getEditor" ;;
   c <- createCheckpoint ;;
   set_currentUndoCheckpoint (Some c) ;;
   notifyChanged)%js.

Definition _getAnnotationString : M string :=
  (ii <- bind (this _inputInfo) deref ;;
   let inputSizeTuple := inputSize ii in
   inputSizeCopy <- array_map_id inputSizeTuple ;;
   predicted <- this _predictedBatchSize ;;
   match predicted with
   | Some b => array_set_first inputSizeCopy (JS.Math_round b)
   | None => ret tt
   end ;;
   xs <- read_array inputSizeCopy ;;
   ret ("@innpv size (" ++ JS.join ", " xs ++ ")")%string)%js.

Definition _updateAnnotationInBuffer : M unit :=
  (INNPVStore_call "getEditor" ;;
   updatedAnnotation <- _getAnnotationString ;;
   INNPVStore_call "ignoreEditorChanges" ;;
   range <- this _currentAnnotationRange ;;
   range' <- setTextInRange range updatedAnnotation ;;
   set_currentAnnotationRange (Some range') ;;
   c <- this _currentUndoCheckpoint ;;
   emit (GroupChangesSinceCheckpoint c) ;;
   INNPVStore_call "subscribeToEditorChanges")%js.

(** The constant [updatedUsage] of [updateMemoryUsage]. *)
Definition updatedUsage (mi : MemoryInfo) (deltaPct basePct : num) : num :=
  let updatedPct := JS.add basePct deltaPct in
  JS.Math_min
    (JS.mul (JS.div updatedPct (JS.of_Z 100)) (Fin (maxCapacityMb mi)))
    (Fin (maxCapacityMb mi)).

Definition updateMemoryUsage (deltaPct basePct : num) : M unit :=
  (mi <- bind (this _memoryInfo) deref ;;
   set_predictedBatchSize
     (Some (JS.Math_max
              (getBatchSizeFromUsage (usageModelMb mi)
                                     (updatedUsage mi deltaPct basePct))
              (JS.of_Z 1))) ;;
   _updateAnnotationInBuffer ;;
   notifyChanged)%js.

(** The constant [updatedThroughput] of [updateThroughput]. *)
Definition updatedThroughput (ti : ThroughputInfo) (deltaPct basePct : num) : num :=
  let updatedPct := JS.add basePct deltaPct in
  JS.Math_max
    (JS.Math_min
       (JS.mul (JS.div updatedPct (JS.of_Z 100)) (Fin (maxThroughput ti)))
       (Fin (throughputLimit ti)))
    (JS.of_Z 0).

(** [updateThroughput], for any function in the place of the
    [getBatchSizeFromThroughput] that it imports from [lib/utils]. *)
Definition updateThroughput_with
    (getBatchSizeFromThroughput : LinearModel -> num -> num)
    (deltaPct basePct : num) : M unit :=
  (ti <- bind (this _throughputInfo) deref ;;
   let throughputBatchSize :=
     getBatchSizeFromThroughput (runtimeModelMs ti)
                                (updatedThroughput ti deltaPct basePct) in
   maxBatchSize <- this _maxBatchSize ;;
   (if JS.ltb throughputBatchSize (JS.of_Z 0)
    then set_predictedBatchSize maxBatchSize
    else set_predictedBatchSize
           (Some (JS.Math_max
                    (JS.Math_min throughputBatchSize (JS.ToNumber maxBatchSize))
                    (JS.of_Z 1)))) ;;
   _updateAnnotationInBuffer ;;
   notifyChanged)%js.

Definition updateThroughput : num -> num -> M unit :=
  updateThroughput_with getBatchSizeFromThroughput.

Definition clearPredictions : M unit :=
  (set_predictedBatchSize None ;;
   _updateAnnotationInBuffer ;;
   notifyChanged)%js.

Definition getInputInfo : M (option InputInfo) := this _inputInfo.

(** *** Predicates on the store *)

(** [predictedBatchSize] is a number of the interval [[1, maxBatchSize]]. *)
Definition prediction_in_range (s : BatchSizeStore) : Prop :=
  exists p mb, _predictedBatchSize s = Some p /\ _maxBatchSize s = Some mb /\
               JS.leb (JS.of_Z 1) p = true /\ JS.leb p mb = true.

(** [predictedBatchSize === maxBatchSize], both numbers. *)
Definition prediction_is_max (s : BatchSizeStore) : Prop :=
  exists p mb, _predictedBatchSize s = Some p /\ _maxBatchSize s = Some mb /\
               JS.eqb p mb = true.

(** [maxBatchSize] is a number and [1 <= maxBatchSize]. *)
Definition max_at_least_one (s : BatchSizeStore) : Prop :=
  exists mb, _maxBatchSize s = Some mb /\ JS.leb (JS.of_Z 1) mb = true.

(** The elements of the array whose text is written: the input size, its
    first element replaced by the rounded prediction when there is one. *)
Definition annotated_tuple (predicted : option num) (xs : list integral)
  : list integral :=
  match predicted with
  | Some b => store_first (JS.Math_round b) xs
  | None => xs
  end.



(** *** Relations between the worlds before and after a call *)

(** Every run of [m] relates the world it starts from to the one it leaves,
    whether it returns or throws. *)
Definition preserves {A : Type} (R : relation world) (m : M A) : Prop :=
  forall w, R w (after (m w)).

(** The store keeps what [f] reads of it. *)
Definition agree {A : Type} (f : BatchSizeStore -> A) : relation world :=
  fun w w' => f (store w) = f (store w').

(** An annotation range, once set, stays set. *)
Definition range_set : relation world :=
  fun w w' => is_Some (_currentAnnotationRange (store w)) ->
              is_Some (_currentAnnotationRange (store w')).

(** Every array of the first world is in the second one, with the same
    elements. *)
Definition heap_kept : relation world :=
  fun w w' => forall l xs, heap w !! l = Some xs -> heap w' !! l = Some xs.

(** The fields that an analysis sets and an adjustment reads. *)
Definition analysis_of (s : BatchSizeStore)
  : option ThroughputInfo * option MemoryInfo * option InputInfo * option num :=
  (_throughputInfo s, _memoryInfo s, _inputInfo s, _maxBatchSize s).

(** [Throughput] and [Memory] of [lib/models] are not part of the sources:
    their two factories are taken as given. *)
Section Projections.

Context {Throughput Memory : Type}.
Variable Throughput_fromInfo : ThroughputInfo -> Throughput.
Variable Throughput_fromPrediction : ThroughputInfo -> num -> Throughput.
Variable Memory_fromInfo : MemoryInfo -> Memory.
Variable Memory_fromPrediction : MemoryInfo -> num -> Memory.

Definition getThroughputModel : M (option Throughput) :=
  (throughputInfo <- this _throughputInfo ;;
   match throughputInfo with
   | None => ret None
   | Some ti =>
       predicted <- this _predictedBatchSize ;;
       match predicted with
       | None => ret (Some (Throughput_fromInfo ti))
       | Some b => ret (Some (Throughput_fromPrediction ti b))
       end
   end)%js.

Definition getMemoryModel : M (option Memory) :=
  (memoryInfo <- this _memoryInfo ;;
   match memoryInfo with
   | None => ret None
   | Some mi =>
       predicted <- this _predictedBatchSize ;;
       match predicted with
       | None => ret (Some (Memory_fromInfo mi))
       | Some b => ret (Some (Memory_fromPrediction mi b))
       end
   end)%js.

End Projections.

(** *** Sequences of calls *)

(** A call of one of the store's mutating methods. *)
Inductive call : Type :=
  | ReceivedAnalysis (ti : ThroughputInfo) (mi : MemoryInfo) (ii : InputInfo)
  | UpdateMemoryUsage (deltaPct basePct : num)
  | UpdateThroughput (deltaPct basePct : num)
  | ClearPredictions.

Definition perform (c : call) : M unit :=
  match c with
  | ReceivedAnalysis ti mi ii => receivedAnalysis ti mi ii
  | UpdateMemoryUsage d b => updateMemoryUsage d b
  | UpdateThroughput d b => updateThroughput d b
  | ClearPredictions => clearPredictions
  end.

(** The calls of [cs] one after the other, each run to its end; a call that
    throws leaves the world it reached to the next one. *)
Fixpoint run (cs : list call) (w : world) : world :=
  match cs with
  | [] => w
  | c :: cs' => run cs' (after (perform c w))
  end.

(** A slider adjustment or a clear: every call but a new analysis. *)
Definition is_adjustment (c : call) : bool :=
  match c with
  | ReceivedAnalysis _ _ _ => false
  | _ => true
  end.

(* ================================================================== *)
(** ** [INNPVStore] *)
(* ================================================================== *)

Module INNPV.

(** A listener is a function object; only its identity matters to the
    emitter. Listeners are taken to return without calling back into the
    store. *)
Definition callback : Type := nat.

Definition UPDATE_EVENT : string := "updated".

(** [l] without the first occurrence of [cb]. *)
Fixpoint remove_first (cb : callback) (l : list callback) : list callback :=
  match l with
  | [] => []
  | x :: l' => if Nat.eqb x cb then l' else x :: remove_first cb l'
  end.

(** [l] without the last occurrence of [cb]. *)
Definition remove_last (cb : callback) (l : list callback) : list callback :=
  rev (remove_first cb (rev l)).

Section Store.

(** [AppState] of [lib/models] is not part of the sources: the type of
    its values and [AppState.ACTIVATED] are taken as given. *)
Context {AppState : Type}.
Variable ACTIVATED : AppState.

(** The fields of the store; the [EventEmitter] of Node is the listener
    arrays it keeps per event name, in the order of registration. *)
Record INNPVStore : Type := {
  _appState : AppState;
  _emitter : gmap string (list callback)
}.

(** The store and the emissions so far, latest last: the event name and
    the listeners called, in the order of the calls. *)
Record state : Type := {
  instance : INNPVStore;
  emitted : list (string * list callback)
}.

Definition listeners (event : string) (e : gmap string (list callback))
  : list callback := default [] (e !! event).

(** [emitter.on(event, cb)] *)
Definition on (event : string) (cb : callback)
    (e : gmap string (list callback)) : gmap string (list callback) :=
  <[event := listeners event e ++ [cb]]> e.

(** [emitter.removeListener(event, cb)]: at most one registration goes,
    the most recent one. *)
Definition emitter_removeListener (event : string) (cb : callback)
    (e : gmap string (list callback)) : gmap string (list callback) :=
  <[event := remove_last cb (listeners event e)]> e.

Definition constructor : INNPVStore :=
  {| _appState := ACTIVATED; _emitter := ∅ |}.

Definition getAppState (st : state) : AppState := _appState (instance st).

Definition _notifyChanged (st : state) : state :=
  {| instance := instance st;
     emitted := emitted st ++
       [(UPDATE_EVENT, listeners UPDATE_EVENT (_emitter (instance st)))] |}.

Definition setAppState (s : AppState) (st : state) : state :=
  _notifyChanged
    {| instance := {| _appState := s; _emitter := _emitter (instance st) |};
       emitted := emitted st |}.

Definition addListener (cb : callback) (st : state) : state :=
  {| instance := {| _appState := _appState (instance st);
                    _emitter := on UPDATE_EVENT cb (_emitter (instance st)) |};
     emitted := emitted st |}.

Definition removeListener (cb : callback) (st : state) : state :=
  {| instance :=
       {| _appState := _appState (instance st);
          _emitter := emitter_removeListener UPDATE_EVENT cb
                        (_emitter (instance st)) |};
     emitted := emitted st |}.

(** A call of one of the store's methods that change it. *)
Inductive op : Type :=
  | SetAppState (s : AppState)
  | AddListener (cb : callback)
  | RemoveListener (cb : callback).

Definition step (o : op) (st : state) : state :=
  match o with
  | SetAppState s => setAppState s st
  | AddListener cb => addListener cb st
  | RemoveListener cb => removeListener cb st
  end.

Fixpoint exec (os : list op) (st : state) : state :=
  match os with
  | [] => st
  | o :: os' => exec os' (step o st)
  end.

Definition removes (cb : callback) (o : op) : bool :=
  match o with
  | RemoveListener cb' => Nat.eqb cb' cb
  | _ => false
  end.

End Store.

End INNPV.

(* ================================================================== *)
(** ** The helpers of [lib/utils] over binary64 *)
(* ================================================================== *)

(** The primitive floats are the binary64 numbers of IEEE 754, which a
    JavaScript Number is; the two helpers that the round trip composes are
    given here with their rounding. *)
Module Binary64.

Record LinearModel : Type := {
  slope : float;
  intercept : float
}.

(** Modelled from the spec: [evaluateLinearModel] of [lib/utils], not part
    of the sources, [value(b) = slope*b + intercept]. *)
Definition evaluateLinearModel (model : LinearModel) (x : float) : float :=
  (slope model * x + intercept model)%float.

(** Modelled from the spec: [getBatchSizeFromUsage] of [lib/utils], not
    part of the sources, [(targetUsageMb - intercept) / slope]. *)
Definition getBatchSizeFromUsage (usageModelMb : LinearModel) (usageMb : float) : float :=
  ((usageMb - intercept usageModelMb) / slope usageModelMb)%float.

(** Modelled from the spec: [getBatchSizeFromThroughput] of [lib/utils],
    not part of the sources,
    [intercept * targetThroughput / (1000 - slope * targetThroughput)]. *)
Definition getBatchSizeFromThroughput (runtimeModelMs : LinearModel)
    (throughput : float) : float :=
  (intercept runtimeModelMs * throughput /
   (1000 - slope runtimeModelMs * throughput))%float.

End Binary64.

(* ================================================================== *)
(** ** Sequences of [INNPVStore] calls *)
(* ================================================================== *)

(** The argument of the last [setAppState] among [os], and [s0] when there
    is none. *)
Fixpoint last_set {AppState : Type} (os : list (@INNPV.op AppState))
    (s0 : AppState) : AppState :=
  match os with
  | [] => s0
  | INNPV.SetAppState s :: os' => last_set os' s
  | _ :: os' => last_set os' s0
  end.

Definition is_set {AppState : Type} (o : @INNPV.op AppState) : bool :=
  match o with
  | INNPV.SetAppState _ => true
  | _ => false
  end.

(* ================================================================== *)
(** ** Scenarios *)
(* ================================================================== *)

(** The world after an analysis and the calls [cs] that follow it. *)
Definition after_analysis (ti : ThroughputInfo) (mi : MemoryInfo)
    (ii : InputInfo) (cs : list call) (w0 : world) : world :=
  run cs (after (receivedAnalysis ti mi ii w0)).

Module Scenario.

(** A freshly constructed store, and the input size [(32, 3, 224, 224)]
    of the message at address 0. *)
Definition w_empty : world :=
  {| store := constructor;
     heap := {[ 0%nat := [Int 32; Int 3; Int 224; Int 224] ]};
     log := [];
     checkpoints := 0 |}.

Definition ii_spec : InputInfo :=
  {| annotationStart := {| line := 3; column := 0 |};
     annotationEnd := {| line := 3; column := 29 |};
     inputSize := 0%nat |}.

(** The memory model of the specification's scenario: 50 MB per sample
    over 200 MB, on 8000 MB. *)
Definition mi_spec : MemoryInfo :=
  {| usageModelMb := {| slope := 50; intercept := 200 |};
     maxCapacityMb := 8000 |}.

(** The same model on 8010 MB: 156.2 samples fit. *)
Definition mi_fraction : MemoryInfo :=
  {| usageModelMb := {| slope := 50; intercept := 200 |};
     maxCapacityMb := 8010 |}.

(** A model too large for one sample: 5000 MB per sample over 4000 MB, on
    8000 MB. *)
Definition mi_small : MemoryInfo :=
  {| usageModelMb := {| slope := 5000; intercept := 4000 |};
     maxCapacityMb := 8000 |}.

(** The runtime model of the specification's scenario: 2 ms per sample
    over 10 ms, measured at 400 samples per second, limit 450. *)
Definition ti_spec : ThroughputInfo :=
  {| runtimeModelMs := {| slope := 2; intercept := 10 |};
     maxThroughput := 400;
     throughputLimit := 450 |}.

(** The same model with a limit beyond its asymptote of 500. *)
Definition ti_fast : ThroughputInfo :=
  {| runtimeModelMs := {| slope := 2; intercept := 10 |};
     maxThroughput := 400;
     throughputLimit := 600 |}.

(** A runtime proportional to the batch size: no intercept. *)
Definition ti_zero : ThroughputInfo :=
  {| runtimeModelMs := {| slope := 2; intercept := 0 |};
     maxThroughput := 400;
     throughputLimit := 600 |}.

(** A runtime model fitted with a negative intercept. *)
Definition ti_negative : ThroughputInfo :=
  {| runtimeModelMs := {| slope := 2; intercept := -1 |};
     maxThroughput := 400;
     throughputLimit := 600 |}.

(** The model [{slope: 0.1, intercept: 0.2}] in binary64. *)
#[warnings="-inexact-float"]
Definition tenth_model : Binary64.LinearModel :=
  {| Binary64.slope := 0.1%float; Binary64.intercept := 0.2%float |}.

(** The model [{slope: 1, intercept: 2 ^ 53}] in binary64. *)
Definition absorbing_model : Binary64.LinearModel :=
  {| Binary64.slope := 1%float;
     Binary64.intercept := 9007199254740992%float |}.

(** The model [{slope: 4000, intercept: 2 ^ -1074}] in binary64: the
    intercept is the least positive number. *)
Definition underflow_model : Binary64.LinearModel :=
  {| Binary64.slope := 4000%float;
     Binary64.intercept := 0x1p-1074%float |}.

(** The model [{slope: 2 ^ 1023, intercept: 0}] in binary64. *)
Definition overflowing_model : Binary64.LinearModel :=
  {| Binary64.slope := 0x1p1023%float; Binary64.intercept := 0%float |}.

(** The model [{slope: 50, intercept: 200}] in binary64. *)
Definition spec_model : Binary64.LinearModel :=
  {| Binary64.slope := 50%float; Binary64.intercept := 200%float |}.

End Scenario.

(* ================================================================== *)
(** ** Facts about the numbers *)
(* ================================================================== *)

Section Numbers.

Local Open Scope Q_scope.


Lemma Qltb_false (p q : Q) : JS.Qltb p q = false <-> q <= p.
Proof.
  unfold JS.Qltb. rewrite negb_false_iff. apply Qle_bool_iff.
Qed.

Lemma Qle_bool_false (p q : Q) : Qle_bool p q = false <-> q < p.
Proof.
  split; intros H.
  - apply Qnot_le_lt. intros Hle. apply Qle_bool_iff in Hle. congruence.
  - destruct (Qle_bool p q) eqn:E; [|reflexivity].
    apply Qle_bool_iff in E. lra.
Qed.

Lemma Qeq_bool_false (p q : Q) : Qeq_bool p q = false <-> ~ p == q.
Proof.
  split; intros H.
  - now apply Qeq_bool_neq.
  - destruct (Qeq_bool p q) eqn:E; [|reflexivity].
    apply Qeq_bool_iff in E. contradiction.
Qed.

(** A quotient by a divisor that is not zero is the finite quotient. *)
Lemma div_Fin (p q : Q) : ~ q == 0 -> JS.div (Fin p) (Fin q) = Fin (p / q).
Proof.
  intros H. unfold JS.div. now rewrite (proj2 (Qeq_bool_false q 0) H).
Qed.

Lemma Qdiv_le_mono (p q s : Q) : 0 < s -> p <= q -> p / s <= q / s.
Proof.
  intros Hs Hpq. unfold Qdiv. apply Qmult_le_compat_r; [assumption|].
  apply Qlt_le_weak, Qinv_lt_0_compat, Hs.
Qed.

Lemma leb_refl (a : num) : a <> NaN -> JS.leb a a = true.
Proof.
  destruct a; simpl; try congruence. intros _. apply Qle_bool_iff. lra.
Qed.

Lemma eqb_refl (a : num) : a <> NaN -> JS.eqb a a = true.
Proof.
  destruct a; simpl; try congruence. intros _. apply Qeq_bool_iff. lra.
Qed.

Lemma leb_not_NaN_r (a b : num) : JS.leb a b = true -> b <> NaN.
Proof. destruct a, b; simpl; congruence. Qed.

Lemma leb_total (a b : num) :
  a <> NaN -> b <> NaN -> JS.leb a b = false -> JS.leb b a = true.
Proof.
  destruct a, b; simpl; try congruence. intros _ _ H.
  apply Qle_bool_false in H. apply Qle_bool_iff. lra.
Qed.

(** Two numbers, each at most the other, are [===]. *)
Lemma leb_antisym (a b : num) :
  JS.leb a b = true -> JS.leb b a = true -> JS.eqb a b = true.
Proof.
  destruct a, b; simpl; try congruence. intros H1 H2.
  apply Qle_bool_iff in H1, H2. apply Qeq_bool_iff. lra.
Qed.

(** [Math.max(x, 1)] is at least 1 unless [x] is NaN. *)
Lemma Math_max_one_ge (x : num) :
  x <> NaN -> JS.leb (JS.of_Z 1) (JS.Math_max x (JS.of_Z 1)) = true.
Proof.
  intros Hx. unfold JS.Math_max, JS.of_Z.
  destruct x; try congruence.
  - destruct (JS.leb (Fin q) (Fin (inject_Z 1))) eqn:E.
    + apply leb_refl. discriminate.
    + apply leb_total; [discriminate..|exact E].
  - reflexivity.
  - reflexivity.
Qed.

(** [Math.max(x, 1)] stays below a bound that is at least 1 and at least
    [x]. *)
Lemma Math_max_one_le (x hi : num) :
  JS.leb (JS.of_Z 1) hi = true -> JS.leb x hi = true ->
  JS.leb (JS.Math_max x (JS.of_Z 1)) hi = true.
Proof.
  intros H1 Hx. unfold JS.Math_max, JS.of_Z in *.
  destruct x; try discriminate.
  - now destruct (JS.leb (Fin q) (Fin (inject_Z 1))).
  - simpl. assumption.
  - simpl. assumption.
Qed.

(** [Math.max(x, 1)] is at least [x] unless [x] is NaN. *)
Lemma Math_max_one_ge_l (x : num) :
  x <> NaN -> JS.leb x (JS.Math_max x (JS.of_Z 1)) = true.
Proof.
  intros Hx. unfold JS.Math_max, JS.of_Z.
  destruct x; try congruence.
  - destruct (JS.leb (Fin q) (Fin (inject_Z 1))) eqn:E.
    + exact E.
    + apply leb_refl. discriminate.
  - reflexivity.
  - reflexivity.
Qed.

(** [Math.min(x, hi)] is at most [hi] when neither is NaN. *)
Lemma Math_min_le_r (x hi : num) :
  x <> NaN -> hi <> NaN -> JS.leb (JS.Math_min x hi) hi = true.
Proof.
  intros Hx Hhi. unfold JS.Math_min.
  destruct x, hi; try congruence;
    match goal with
    | |- JS.leb (if JS.leb ?a ?b then _ else _) _ = true =>
        destruct (JS.leb a b) eqn:E; [exact E|now apply leb_refl]
    end.
Qed.

Lemma Math_min_not_NaN (x hi : num) :
  x <> NaN -> hi <> NaN -> JS.Math_min x hi <> NaN.
Proof.
  intros Hx Hhi. unfold JS.Math_min.
  destruct x, hi; try congruence;
    match goal with
    | |- (if ?c then _ else _) <> _ => destruct c; congruence
    end.
Qed.

(** The clamp [Math.max(Math.min(x, hi), 1)] lands in [[1, hi]] as soon as
    the interval is not empty. *)
Lemma clamp_in_range (x hi : num) :
  x <> NaN -> JS.leb (JS.of_Z 1) hi = true ->
  let p := JS.Math_max (JS.Math_min x hi) (JS.of_Z 1) in
  JS.leb (JS.of_Z 1) p = true /\ JS.leb p hi = true.
Proof.
  intros Hx H1 p. pose proof (leb_not_NaN_r _ _ H1) as Hhi. split.
  - apply Math_max_one_ge. now apply Math_min_not_NaN.
  - apply Math_max_one_le; [assumption|]. now apply Math_min_le_r.
Qed.

(** [Math.min(Infinity, hi)] is [hi]. *)
Lemma Math_min_PInf (hi : num) : JS.Math_min PInf hi = hi.
Proof. now destruct hi. Qed.


End Numbers.

(* ================================================================== *)
(** ** Frames: what a call leaves as it was *)
(* ================================================================== *)

Global Instance agree_preorder {A : Type} (f : BatchSizeStore -> A) :
  PreOrder (agree f).
Proof.
  split.
  - intros w. reflexivity.
  - intros w1 w2 w3 H12 H23. unfold agree in *. congruence.
Qed.

Global Instance heap_kept_preorder : PreOrder heap_kept.
Proof.
  split.
  - intros w l xs H. exact H.
  - intros w1 w2 w3 H12 H23 l xs H. apply H23, H12, H.
Qed.

Section Preservation.

Context (R : relation world) `{!PreOrder R}.

Lemma preserves_ret {A : Type} (a : A) : preserves R (ret a).
Proof. intros w. simpl. reflexivity. Qed.

Lemma preserves_throw {A : Type} : preserves R (@throw A).
Proof. intros w. simpl. reflexivity. Qed.

Lemma preserves_this {A : Type} (f : BatchSizeStore -> A) :
  preserves R (this f).
Proof. intros w. simpl. reflexivity. Qed.

Lemma preserves_deref {A : Type} (o : option A) : preserves R (deref o).
Proof. destruct o; [apply preserves_ret|apply preserves_throw]. Qed.

Lemma preserves_read_array (l : loc) : preserves R (read_array l).
Proof.
  intros w. unfold read_array. destruct (heap w !! l); simpl; reflexivity.
Qed.

Lemma preserves_INNPVStore_call (name : string) :
  preserves R (INNPVStore_call name).
Proof.
  unfold INNPVStore_call.
  destruct (existsb _ _); [apply preserves_ret|apply preserves_throw].
Qed.

Lemma preserves_bind {A B : Type} (m : M A) (k : A -> M B) :
  preserves R m -> (forall a, preserves R (k a)) -> preserves R (bind m k).
Proof.
  intros Hm Hk w. unfold bind. specialize (Hm w).
  destruct (m w) as [a w'|w']; simpl in *.
  - etransitivity; [exact Hm|apply Hk].
  - exact Hm.
Qed.

End Preservation.

(** The calls that the store is made of, one relation at a time: a bind
    splits, a branch is taken apart, and a primitive is unfolded. *)
Ltac frame_step :=
  match goal with
  | |- preserves _ (bind _ _) => apply preserves_bind; [typeclasses eauto| |intros ?]
  | |- preserves _ (ret _) => apply preserves_ret; typeclasses eauto
  | |- preserves _ throw => apply preserves_throw; typeclasses eauto
  | |- preserves _ (this _) => apply preserves_this; typeclasses eauto
  | |- preserves _ (deref _) => apply preserves_deref; typeclasses eauto
  | |- preserves _ (read_array _) => apply preserves_read_array; typeclasses eauto
  | |- preserves _ (INNPVStore_call _) =>
      apply preserves_INNPVStore_call; typeclasses eauto
  | |- preserves _ (match ?x with _ => _ end) => destruct x
  | |- preserves _ (let _ := _ in _) => cbv zeta
  end.

Ltac frame := repeat frame_step.

Section StoreFrames.

(** Writes to the log, the heap and the checkpoint counter leave every
    field of the store alone. *)
Context {A : Type} (f : BatchSizeStore -> A).

Lemma agree_emit (e : effect) : preserves (agree f) (emit e).
Proof. intros w. reflexivity. Qed.

Lemma agree_new_array (xs : list integral) : preserves (agree f) (new_array xs).
Proof. intros w. reflexivity. Qed.

Lemma agree_array_set_first (l : loc) (v : integral) :
  preserves (agree f) (array_set_first l v).
Proof.
  intros w. unfold array_set_first. destruct (heap w !! l); reflexivity.
Qed.

Lemma agree_createCheckpoint : preserves (agree f) createCheckpoint.
Proof. intros w. reflexivity. Qed.

Lemma agree_array_map_id (l : loc) : preserves (agree f) (array_map_id l).
Proof. unfold array_map_id. frame. apply agree_new_array. Qed.

Lemma agree_setTextInRange (r : option Range) (text : string) :
  preserves (agree f) (setTextInRange r text).
Proof. unfold setTextInRange. frame. apply agree_emit. Qed.

Lemma agree_getAnnotationString : preserves (agree f) _getAnnotationString.
Proof.
  unfold _getAnnotationString. frame;
    auto using agree_array_map_id, agree_array_set_first.
Qed.

End StoreFrames.

(** [_updateAnnotationInBuffer] assigns [_currentAnnotationRange] only. *)
Lemma agree_updateAnnotationInBuffer {A : Type} (f : BatchSizeStore -> A) :
  (forall v, preserves (agree f) (set_currentAnnotationRange v)) ->
  preserves (agree f) _updateAnnotationInBuffer.
Proof.
  intros Hset. unfold _updateAnnotationInBuffer. frame;
    auto using agree_getAnnotationString, agree_emit, agree_setTextInRange.
Qed.

Lemma analysis_updateAnnotationInBuffer :
  preserves (agree analysis_of) _updateAnnotationInBuffer.
Proof. apply agree_updateAnnotationInBuffer. intros v w. reflexivity. Qed.

Lemma predicted_updateAnnotationInBuffer :
  preserves (agree _predictedBatchSize) _updateAnnotationInBuffer.
Proof. apply agree_updateAnnotationInBuffer. intros v w. reflexivity. Qed.

(** An adjustment or a clear keeps the analysis. *)
Lemma analysis_set_predictedBatchSize (v : option num) :
  preserves (agree analysis_of) (set_predictedBatchSize v).
Proof. intros w. reflexivity. Qed.

Lemma analysis_updateMemoryUsage (d b : num) :
  preserves (agree analysis_of) (updateMemoryUsage d b).
Proof.
  unfold updateMemoryUsage, notifyChanged. frame;
    auto using analysis_set_predictedBatchSize,
      analysis_updateAnnotationInBuffer, agree_emit.
Qed.

Lemma analysis_updateThroughput_with (inversion : LinearModel -> num -> num)
    (d b : num) :
  preserves (agree analysis_of) (updateThroughput_with inversion d b).
Proof.
  unfold updateThroughput_with, notifyChanged. frame;
    auto using analysis_set_predictedBatchSize,
      analysis_updateAnnotationInBuffer, agree_emit.
Qed.

Lemma analysis_updateThroughput (d b : num) :
  preserves (agree analysis_of) (updateThroughput d b).
Proof. apply analysis_updateThroughput_with. Qed.

Lemma analysis_clearPredictions :
  preserves (agree analysis_of) clearPredictions.
Proof.
  unfold clearPredictions, notifyChanged. frame;
    auto using analysis_set_predictedBatchSize,
      analysis_updateAnnotationInBuffer, agree_emit.
Qed.

Lemma analysis_run (cs : list call) (w : world) :
  forallb is_adjustment cs = true ->
  analysis_of (store (run cs w)) = analysis_of (store w).
Proof.
  revert w. induction cs as [|c cs IH]; intros w Hcs; simpl in *.
  - reflexivity.
  - apply andb_prop in Hcs as [Hc Hcs]. rewrite (IH _ Hcs).
    symmetry. destruct c; simpl in *; try discriminate.
    + apply analysis_updateMemoryUsage.
    + apply analysis_updateThroughput.
    + apply analysis_clearPredictions.
Qed.

(* ================================================================== *)
(** ** What the methods compute *)
(* ================================================================== *)

(** [receivedAnalysis] assigns the analysis, the maximum and the range, and
    throws at [INNPVStore.getEditor()]: no checkpoint is opened, and
    [notifyChanged] is not reached. *)
Lemma receivedAnalysis_spec (ti : ThroughputInfo) (mi : MemoryInfo)
    (ii : InputInfo) (w : world) :
  receivedAnalysis ti mi ii w =
  Throw
    {| store :=
         {| _throughputInfo := Some ti; _memoryInfo := Some mi;
            _inputInfo := Some ii; _predictedBatchSize := None;
            _maxBatchSize :=
              Some (getBatchSizeFromUsage (usageModelMb mi)
                                          (Fin (maxCapacityMb mi)));
            _currentAnnotationRange :=
              Some {| range_start := (line (annotationStart ii),
                                      column (annotationStart ii));
                      range_end := (line (annotationEnd ii),
                                    column (annotationEnd ii)) |};
            _currentUndoCheckpoint := _currentUndoCheckpoint (store w) |};
       heap := heap w;
       log := log w;
       checkpoints := checkpoints w |}.
Proof. reflexivity. Qed.

(** The analysis that a store holds after [receivedAnalysis] and any number
    of adjustments. *)
Lemma analysis_after (ti : ThroughputInfo) (mi : MemoryInfo) (ii : InputInfo)
    (cs : list call) (w0 : world) :
  forallb is_adjustment cs = true ->
  analysis_of (store (run cs (after (receivedAnalysis ti mi ii w0)))) =
  (Some ti, Some mi, Some ii,
   Some (getBatchSizeFromUsage (usageModelMb mi) (Fin (maxCapacityMb mi)))).
Proof. intros Hcs. now rewrite (analysis_run _ _ Hcs). Qed.

Lemma bind_this_deref {A B : Type} (f : BatchSizeStore -> option A)
    (k : A -> M B) (w : world) (a : A) :
  f (store w) = Some a -> bind (bind (this f) deref) k w = k a w.
Proof. intros H. unfold bind, this. now rewrite H. Qed.

Lemma bind_this_deref_null {A B : Type} (f : BatchSizeStore -> option A)
    (k : A -> M B) (w : world) :
  f (store w) = None -> bind (bind (this f) deref) k w = Throw w.
Proof. intros H. unfold bind, this. now rewrite H. Qed.

Lemma predicted_tail :
  preserves (agree _predictedBatchSize)
            (bind _updateAnnotationInBuffer (fun _ => notifyChanged)).
Proof.
  frame; [apply predicted_updateAnnotationInBuffer|apply agree_emit].
Qed.

(** The prediction that [updateMemoryUsage] leaves. *)
Lemma updateMemoryUsage_predicted (w : world) (mi : MemoryInfo) (d b : num) :
  _memoryInfo (store w) = Some mi ->
  _predictedBatchSize (store (after (updateMemoryUsage d b w))) =
  Some (JS.Math_max
          (getBatchSizeFromUsage (usageModelMb mi) (updatedUsage mi d b))
          (JS.of_Z 1)).
Proof.
  intros Hmi. unfold updateMemoryUsage.
  rewrite (bind_this_deref _ _ _ _ Hmi).
  unfold bind at 1. unfold set_predictedBatchSize at 1, with_store at 1.
  cbv beta iota.
  symmetry.
  lazymatch goal with
  | |- _ = _predictedBatchSize (store (after (_ ?w1))) => exact (predicted_tail w1)
  end.
Qed.

(** The prediction that [updateThroughput] leaves, for any function in the
    place of [getBatchSizeFromThroughput]. *)
Lemma updateThroughput_with_predicted (inversion : LinearModel -> num -> num)
    (w : world) (ti : ThroughputInfo) (d b : num) :
  _throughputInfo (store w) = Some ti ->
  _predictedBatchSize (store (after (updateThroughput_with inversion d b w))) =
  let throughputBatchSize :=
    inversion (runtimeModelMs ti) (updatedThroughput ti d b) in
  if JS.ltb throughputBatchSize (JS.of_Z 0)
  then _maxBatchSize (store w)
  else Some (JS.Math_max
               (JS.Math_min throughputBatchSize
                            (JS.ToNumber (_maxBatchSize (store w))))
               (JS.of_Z 1)).
Proof.
  intros Hti. unfold updateThroughput_with.
  rewrite (bind_this_deref _ _ _ _ Hti).
  cbv zeta. unfold bind at 1. unfold this at 1.
  destruct (JS.ltb _ _);
    unfold bind at 1; unfold set_predictedBatchSize at 1, with_store at 1;
    cbv beta iota; symmetry;
    lazymatch goal with
    | |- _ = _predictedBatchSize (store (after (_ ?w1))) => exact (predicted_tail w1)
    end.
Qed.

(** The prediction that [updateThroughput] leaves. *)
Lemma updateThroughput_predicted (w : world) (ti : ThroughputInfo) (d b : num) :
  _throughputInfo (store w) = Some ti ->
  _predictedBatchSize (store (after (updateThroughput d b w))) =
  let throughputBatchSize :=
    getBatchSizeFromThroughput (runtimeModelMs ti) (updatedThroughput ti d b) in
  if JS.ltb throughputBatchSize (JS.of_Z 0)
  then _maxBatchSize (store w)
  else Some (JS.Math_max
               (JS.Math_min throughputBatchSize
                            (JS.ToNumber (_maxBatchSize (store w))))
               (JS.of_Z 1)).
Proof. apply updateThroughput_with_predicted. Qed.

Section Targets.

Local Open Scope Q_scope.

Lemma hundred_not_zero : ~ inject_Z 100 == 0.
Proof. intros H. discriminate H. Qed.

(** The usage that [updateMemoryUsage] aims at is finite and within the
    capacity. *)
Lemma updatedUsage_Fin (mi : MemoryInfo) (d b : Q) :
  exists u, updatedUsage mi (Fin d) (Fin b) = Fin u /\ u <= maxCapacityMb mi.
Proof.
  unfold updatedUsage. cbv zeta. simpl JS.add.
  unfold JS.of_Z. rewrite (div_Fin _ _ hundred_not_zero). simpl JS.mul.
  unfold JS.Math_min, JS.leb.
  destruct (Qle_bool _ _) eqn:E.
  - eexists; split; [reflexivity|]. now apply Qle_bool_iff.
  - eexists; split; [reflexivity|]. lra.
Qed.

(** The batch size of a finite usage, under a positive slope. *)
Lemma getBatchSizeFromUsage_Fin (model : LinearModel) (u : Q) :
  0 < slope model ->
  getBatchSizeFromUsage model (Fin u) =
  Fin ((u + - intercept model) / slope model).
Proof.
  intros Hs. unfold getBatchSizeFromUsage. simpl JS.sub.
  apply div_Fin. lra.
Qed.


End Targets.

(* ================================================================== *)
(** ** The prediction after an adjustment *)
(* ================================================================== *)

Section Predictions.

Local Open Scope Q_scope.

Lemma analysis_fields (ti : ThroughputInfo) (mi : MemoryInfo)
    (ii : InputInfo) (cs : list call) (w0 : world) :
  forallb is_adjustment cs = true ->
  let s := store (after_analysis ti mi ii cs w0) in
  _throughputInfo s = Some ti /\ _memoryInfo s = Some mi /\
  _inputInfo s = Some ii /\
  _maxBatchSize s =
    Some (getBatchSizeFromUsage (usageModelMb mi) (Fin (maxCapacityMb mi))).
Proof.
  intros Hcs s. pose proof (analysis_after ti mi ii cs w0 Hcs) as H.
  unfold analysis_of in H. fold (after_analysis ti mi ii cs w0) in H.
  fold s in H. now inversion H.
Qed.

(** C1 (as amended): after an analysis whose [maxBatchSize] is at least 1,
    every [updateThroughput(deltaPct, basePct)], whatever numbers it is given
    and whatever [getBatchSizeFromThroughput] returns for the clamped target:
    leaves a prediction in [[1, maxBatchSize]] when that batch size is not
    NaN; leaves [maxBatchSize] when that batch size is negative (the overflow
    substitution) or [Infinity] (the upper clamp); and leaves NaN when it is
    NaN. *)
Theorem updateThroughput_range_and_overflow
    (getBatchSizeFromThroughput : LinearModel -> num -> num)
    (ti : ThroughputInfo) (mi : MemoryInfo) (ii : InputInfo)
    (cs : list call) (w0 : world) (d b : num) :
  forallb is_adjustment cs = true ->
  max_at_least_one (store (after_analysis ti mi ii cs w0)) ->
  let throughputBatchSize :=
    getBatchSizeFromThroughput (runtimeModelMs ti) (updatedThroughput ti d b) in
  let s' := store (after (updateThroughput_with getBatchSizeFromThroughput d b
                            (after_analysis ti mi ii cs w0))) in
  (throughputBatchSize <> NaN -> prediction_in_range s') /\
  (JS.ltb throughputBatchSize (JS.of_Z 0) = true \/ throughputBatchSize = PInf ->
   prediction_is_max s') /\
  (throughputBatchSize = NaN -> _predictedBatchSize s' = Some NaN).
Proof.
  intros Hcs (mb & Hmb & H1) tb s'.
  destruct (analysis_fields ti mi ii cs w0 Hcs) as (Hti & _ & _ & _).
  set (w := after_analysis ti mi ii cs w0) in *.
  pose proof (analysis_updateThroughput_with getBatchSizeFromThroughput d b w)
    as Hframe.
  pose proof (updateThroughput_with_predicted getBatchSizeFromThroughput
                w ti d b Hti) as Hp.
  fold s' in Hp. cbv zeta in Hp. fold tb in Hp.
  assert (Hmb' : _maxBatchSize s' = Some mb).
  { unfold agree, analysis_of in Hframe. inversion Hframe. subst s'. congruence. }
  pose proof (leb_not_NaN_r _ _ H1) as Hnan.
  rewrite Hmb in Hp. simpl JS.ToNumber in Hp.
  assert (Hsub : JS.ltb tb (JS.of_Z 0) = true -> _predictedBatchSize s' = Some mb).
  { intros Hl. now rewrite Hl in Hp. }
  assert (Hclamp : JS.ltb tb (JS.of_Z 0) = false ->
            _predictedBatchSize s' =
            Some (JS.Math_max (JS.Math_min tb mb) (JS.of_Z 1))).
  { intros Hl. now rewrite Hl in Hp. }
  clear Hp. split; [|split].
  - (* the range *)
    intros Htb. destruct (JS.ltb tb (JS.of_Z 0)) eqn:Hl.
    + exists mb, mb. split; [now apply Hsub|]. split; [exact Hmb'|].
      split; [exact H1|now apply leb_refl].
    + eexists _, mb. split; [now apply Hclamp|]. split; [exact Hmb'|].
      now apply clamp_in_range.
  - (* the overflow substitution, and the clamp of Infinity *)
    intros [Hl|Hinf].
    + exists mb, mb. split; [now apply Hsub|]. split; [exact Hmb'|].
      now apply eqb_refl.
    + rewrite Hinf in Hclamp. rewrite Math_min_PInf in Hclamp.
      eexists _, mb. split; [now apply Hclamp|]. split; [exact Hmb'|].
      apply leb_antisym.
      * apply Math_max_one_le; [exact H1|now apply leb_refl].
      * now apply Math_max_one_ge_l.
  - (* NaN goes through both clamps *)
    intros HNaN. rewrite HNaN in Hclamp. rewrite Hclamp by reflexivity.
    now destruct mb.
Qed.

(** C2 (as amended): after an analysis whose usage model has a positive
    slope and whose [maxBatchSize] is at least 1, every
    [updateMemoryUsage(deltaPct, basePct)], for any real [deltaPct] and
    [basePct], leaves a prediction in [[1, maxBatchSize]], without a clamp
    against [maxBatchSize]. *)
Theorem updateMemoryUsage_range
    (ti : ThroughputInfo) (mi : MemoryInfo) (ii : InputInfo)
    (cs : list call) (w0 : world) (d b : Q) :
  forallb is_adjustment cs = true ->
  0 < slope (usageModelMb mi) ->
  max_at_least_one (store (after_analysis ti mi ii cs w0)) ->
  prediction_in_range
    (store (after (updateMemoryUsage (Fin d) (Fin b)
                                     (after_analysis ti mi ii cs w0)))).
Proof.
  intros Hcs Hs (mb & Hmb & H1).
  destruct (analysis_fields ti mi ii cs w0 Hcs) as (_ & Hmi & _ & Hmax).
  set (w := after_analysis ti mi ii cs w0) in *.
  pose proof (analysis_updateMemoryUsage (Fin d) (Fin b) w) as Hframe.
  pose proof (updateMemoryUsage_predicted w mi (Fin d) (Fin b) Hmi) as Hp.
  set (w' := after (updateMemoryUsage (Fin d) (Fin b) w)) in *.
  assert (Hmb' : _maxBatchSize (store w') = Some mb).
  { unfold agree, analysis_of in Hframe. inversion Hframe. congruence. }
  destruct (updatedUsage_Fin mi d b) as (u & Hu & Hcap).
  rewrite Hu, (getBatchSizeFromUsage_Fin _ _ Hs) in Hp.
  rewrite (getBatchSizeFromUsage_Fin _ _ Hs), Hmb in Hmax.
  injection Hmax as ->.
  eexists _, _. split; [exact Hp|]. split; [exact Hmb'|]. split.
  - apply Math_max_one_ge. discriminate.
  - apply Math_max_one_le; [exact H1|].
    simpl. apply Qle_bool_iff. apply Qdiv_le_mono; [exact Hs|lra].
Qed.

End Predictions.

Section PredictionExamples.

Import Scenario.

(** What refutes a range or an equality at a store that is known. *)
Ltac refute_at_store :=
  let p := fresh "p" in
  let mb := fresh "mb" in
  let Hp := fresh "Hp" in
  let Hmb := fresh "Hmb" in
  intros (p & mb & Hp & Hmb & ?);
  vm_compute in Hp; vm_compute in Hmb;
  injection Hp as <-; injection Hmb as <-;
  repeat match goal with H : _ /\ _ |- _ => destruct H end;
  repeat match goal with H : JS.leb _ _ = true |- _ => vm_compute in H end;
  repeat match goal with H : JS.eqb _ _ = true |- _ => vm_compute in H end;
  discriminate.

(** C1, witness: the scenario's runtime model with a limit of 600, after
    an analysis, a memory adjustment and a clear; 150 percent of 400 is the
    target 600, which the model of section 4.1 inverts to [-30]. *)
Lemma updateThroughput_range_and_overflow_witness :
  let w := after_analysis ti_fast mi_spec ii_spec
             [UpdateMemoryUsage (Fin 0) (Fin 50); ClearPredictions] w_empty in
  JS.eqb (getBatchSizeFromThroughput (runtimeModelMs ti_fast)
            (updatedThroughput ti_fast (Fin 50) (Fin 100)))
         (JS.of_Z (-30)) = true /\
  prediction_in_range (store (after (updateThroughput (Fin 50) (Fin 100) w))) /\
  prediction_is_max (store (after (updateThroughput (Fin 50) (Fin 100) w))).
Proof.
  intros w.
  destruct (updateThroughput_range_and_overflow getBatchSizeFromThroughput
              ti_fast mi_spec ii_spec
              [UpdateMemoryUsage (Fin 0) (Fin 50); ClearPredictions]
              w_empty (Fin 50) (Fin 100)) as (Hrange & Hmax & _).
  - reflexivity.
  - eexists. split; reflexivity.
  - split; [reflexivity|]. split.
    + apply Hrange. discriminate.
    + apply Hmax. left. reflexivity.
Defined.

(** C1, as stated, fails. With a runtime model of slope 2 and intercept 0
    and [maxBatchSize = 156]: the target 600, over the asymptote 500,
    leaves the prediction 1 and not [maxBatchSize]; the target 500 leaves
    NaN. With slope 2 and intercept -1, the target 600 leaves 3. With the
    scenario's runtime model and [maxBatchSize = 0.8], the prediction 1 is
    outside [[1, maxBatchSize]]. In binary64, with the slope 4000 and the
    intercept [2 ^ -1074], both positive, the target 0.5 is over the
    asymptote 0.25 and its inversion is [-0], which is not negative: the
    overflow substitution is not taken. *)
Lemma updateThroughput_range_and_overflow_counterexample :
  (let w' := after (updateThroughput (Fin 50) (Fin 100)
                      (after_analysis ti_zero mi_spec ii_spec [] w_empty)) in
   (0 < slope (runtimeModelMs ti_zero))%Q /\
   JS.leb (JS.div (JS.of_Z 1000) (Fin (slope (runtimeModelMs ti_zero))))
          (updatedThroughput ti_zero (Fin 50) (Fin 100)) = true /\
   (exists p mb, _predictedBatchSize (store w') = Some p /\
                 _maxBatchSize (store w') = Some mb /\
                 JS.eqb p (JS.of_Z 1) = true /\
                 JS.eqb mb (JS.of_Z 156) = true) /\
   ~ prediction_is_max (store w')) /\
  (let w' := after (updateThroughput (Fin 25) (Fin 100)
                      (after_analysis ti_zero mi_spec ii_spec [] w_empty)) in
   JS.leb (JS.div (JS.of_Z 1000) (Fin (slope (runtimeModelMs ti_zero))))
          (updatedThroughput ti_zero (Fin 25) (Fin 100)) = true /\
   _predictedBatchSize (store w') = Some NaN /\
   ~ prediction_in_range (store w') /\
   ~ prediction_is_max (store w')) /\
  (let w' := after (updateThroughput (Fin 50) (Fin 100)
                      (after_analysis ti_negative mi_spec ii_spec [] w_empty)) in
   (0 < slope (runtimeModelMs ti_negative))%Q /\
   JS.leb (JS.div (JS.of_Z 1000) (Fin (slope (runtimeModelMs ti_negative))))
          (updatedThroughput ti_negative (Fin 50) (Fin 100)) = true /\
   (exists p mb, _predictedBatchSize (store w') = Some p /\
                 _maxBatchSize (store w') = Some mb /\
                 JS.eqb p (JS.of_Z 3) = true /\
                 JS.eqb mb (JS.of_Z 156) = true) /\
   ~ prediction_is_max (store w')) /\
  (let w' := after (updateThroughput (Fin 0) (Fin 100)
                      (after_analysis ti_spec mi_small ii_spec [] w_empty)) in
   (0 < slope (runtimeModelMs ti_spec))%Q /\
   (exists p mb, _predictedBatchSize (store w') = Some p /\
                 _maxBatchSize (store w') = Some mb /\
                 JS.eqb p (JS.of_Z 1) = true /\
                 JS.eqb mb (Fin (8 # 10)) = true) /\
   ~ prediction_in_range (store w')) /\
  (let throughputBatchSize :=
     Binary64.getBatchSizeFromThroughput underflow_model 0.5 in
   PrimFloat.ltb 0 (Binary64.slope underflow_model) = true /\
   PrimFloat.ltb 0 (Binary64.intercept underflow_model) = true /\
   PrimFloat.leb (1000 / Binary64.slope underflow_model) 0.5 = true /\
   PrimFloat.ltb throughputBatchSize 0 = false /\
   PrimFloat.eqb throughputBatchSize 0 = true).
Proof.
  split; [|split; [|split; [|split]]].
  - intros w'. split; [reflexivity|]. split; [reflexivity|]. split.
    + eexists _, _. repeat split; reflexivity.
    + refute_at_store.
  - intros w'. split; [reflexivity|]. split; [reflexivity|].
    split; refute_at_store.
  - intros w'. split; [reflexivity|]. split; [reflexivity|]. split.
    + eexists _, _. repeat split; reflexivity.
    + refute_at_store.
  - intros w'. split; [reflexivity|]. split.
    + eexists _, _. repeat split; reflexivity.
    + refute_at_store.
  - intros tb. repeat split; vm_compute; reflexivity.
Qed.

(** C2, witness: the scenario's memory model, the slider dragged to 1100
    percent after an analysis and a throughput adjustment. *)
Lemma updateMemoryUsage_range_witness :
  prediction_in_range
    (store (after (updateMemoryUsage (Fin 1000) (Fin 100)
                     (after_analysis ti_spec mi_spec ii_spec
                        [UpdateThroughput (Fin 0) (Fin 100)] w_empty)))).
Proof.
  apply (updateMemoryUsage_range ti_spec mi_spec ii_spec
           [UpdateThroughput (Fin 0) (Fin 100)] w_empty 1000 100).
  - reflexivity.
  - reflexivity.
  - eexists. split; reflexivity.
Defined.

(** C2, as stated, fails: with a usage model of slope 5000 and intercept
    4000 on 8000 MB, [maxBatchSize] is 0.8 and [updateMemoryUsage(0, 100)]
    leaves the prediction 1, above it. *)
Lemma updateMemoryUsage_range_counterexample :
  let w' := after (updateMemoryUsage (Fin 0) (Fin 100)
                     (after_analysis ti_spec mi_small ii_spec [] w_empty)) in
  (0 < slope (usageModelMb mi_small))%Q /\
  (exists p mb, _predictedBatchSize (store w') = Some p /\
                _maxBatchSize (store w') = Some mb /\
                JS.eqb p (JS.of_Z 1) = true /\
                JS.eqb mb (Fin (8 # 10)) = true) /\
  ~ prediction_in_range (store w').
Proof.
  intros w'. split; [reflexivity|]. split.
  - eexists _, _. repeat split; reflexivity.
  - refute_at_store.
Qed.

End PredictionExamples.

(* ================================================================== *)
(** ** The feasible ceiling *)
(* ================================================================== *)

(** C3 (as amended): [receivedAnalysis] stores as [maxBatchSize] the value
    of [getBatchSizeFromUsage(usageModel, maxCapacityMb)] itself, the batch
    size whose projected usage equals the capacity, not its floor; with the
    model [{slope: 50, intercept: 200}] and 8000 MB that value is 156. *)
Theorem receivedAnalysis_maxBatchSize :
  (forall ti mi ii w,
     _maxBatchSize (store (after (receivedAnalysis ti mi ii w))) =
     Some (getBatchSizeFromUsage (usageModelMb mi) (Fin (maxCapacityMb mi)))) /\
  (forall ti ii w,
     exists mb,
       _maxBatchSize (store (after (receivedAnalysis ti Scenario.mi_spec ii w))) =
       Some mb /\
       JS.eqb mb (JS.of_Z 156) = true).
Proof.
  split.
  - intros ti mi ii w. reflexivity.
  - intros ti ii w. eexists. split; reflexivity.
Qed.

(** C3, as stated, fails: with the model [{slope: 50, intercept: 200}] and
    8010 MB the stored [maxBatchSize] is 156.2, and the floor of
    [getBatchSizeFromUsage(usageModel, maxCapacityMb)] is 156. *)
Lemma receivedAnalysis_maxBatchSize_counterexample :
  let w' := after (receivedAnalysis Scenario.ti_spec Scenario.mi_fraction
                                    Scenario.ii_spec Scenario.w_empty) in
  let floored :=
    JS.Math_floor
      (getBatchSizeFromUsage (usageModelMb Scenario.mi_fraction)
                             (Fin (maxCapacityMb Scenario.mi_fraction))) in
  exists mb, _maxBatchSize (store w') = Some mb /\
             JS.eqb mb (Fin (1562 # 10)) = true /\
             JS.eqb floored (JS.of_Z 156) = true /\
             JS.eqb mb floored = false.
Proof.
  intros w' floored. eexists. repeat split; reflexivity.
Qed.

(* ================================================================== *)
(** ** The round trip of the memory model *)
(* ================================================================== *)

(** C4 (as amended): in exact arithmetic, for every model with a strictly
    positive slope and every batch size [b > 0],
    [getBatchSizeFromUsage(model, evaluateLinearModel(model, b)) == b]. In
    binary64 the round trip returns [b] for the model
    [{slope: 50, intercept: 200}] and [b = 3]; it returns
    2.9999999999999996 for [{slope: 0.1, intercept: 0.2}] and [b = 3], 0 for
    [{slope: 1, intercept: 2 ^ 53}] and [b = 1], and [Infinity] for
    [{slope: 2 ^ 1023, intercept: 0}] and [b = 2]. *)
Theorem getBatchSizeFromUsage_round_trip :
  (forall (model : LinearModel) (b : Q),
     (0 < slope model)%Q -> (0 < b)%Q ->
     JS.eqb (getBatchSizeFromUsage model (evaluateLinearModel model (Fin b)))
            (Fin b) = true) /\
  PrimFloat.eqb
    (Binary64.getBatchSizeFromUsage Scenario.spec_model
       (Binary64.evaluateLinearModel Scenario.spec_model 3))
    3 = true /\
  PrimFloat.eqb
    (Binary64.getBatchSizeFromUsage Scenario.tenth_model
       (Binary64.evaluateLinearModel Scenario.tenth_model 3))
    0x1.7ffffffffffffp+1 = true /\
  PrimFloat.eqb
    (Binary64.getBatchSizeFromUsage Scenario.absorbing_model
       (Binary64.evaluateLinearModel Scenario.absorbing_model 1))
    0 = true /\
  PrimFloat.eqb
    (Binary64.getBatchSizeFromUsage Scenario.overflowing_model
       (Binary64.evaluateLinearModel Scenario.overflowing_model 2))
    infinity = true.
Proof.
  split; [|repeat split; vm_compute; reflexivity].
  intros model b Hs Hb. unfold evaluateLinearModel. simpl JS.mul. simpl JS.add.
  rewrite (getBatchSizeFromUsage_Fin _ _ Hs). simpl.
  apply Qeq_bool_iff. field. lra.
Qed.

(** C4, witness: the scenario's memory model at the batch size 32. *)
Lemma getBatchSizeFromUsage_round_trip_witness :
  JS.eqb (getBatchSizeFromUsage (usageModelMb Scenario.mi_spec)
            (evaluateLinearModel (usageModelMb Scenario.mi_spec) (Fin 32)))
         (Fin 32) = true.
Proof.
  apply (proj1 getBatchSizeFromUsage_round_trip
           (usageModelMb Scenario.mi_spec) 32%Q);
    reflexivity.
Defined.

(** C4, as stated, fails in the arithmetic of the program: in binary64, the
    model [{slope: 0.1, intercept: 0.2}] and [b = 3] give
    [(0.1 * 3 + 0.2 - 0.2) / 0.1], which is 2.9999999999999996; the model
    [{slope: 50, intercept: 200}] gives 3 back. *)
Lemma getBatchSizeFromUsage_round_trip_counterexample :
  PrimFloat.ltb 0 (Binary64.slope Scenario.tenth_model) = true /\
  PrimFloat.ltb 0 3 = true /\
  PrimFloat.eqb
    (Binary64.getBatchSizeFromUsage Scenario.tenth_model
       (Binary64.evaluateLinearModel Scenario.tenth_model 3))
    3 = false /\
  PrimFloat.ltb
    (Binary64.getBatchSizeFromUsage Scenario.tenth_model
       (Binary64.evaluateLinearModel Scenario.tenth_model 3))
    3 = true /\
  PrimFloat.eqb
    (Binary64.getBatchSizeFromUsage Scenario.spec_model
       (Binary64.evaluateLinearModel Scenario.spec_model 3))
    3 = true.
Proof. repeat split; vm_compute; reflexivity. Qed.

(* ================================================================== *)
(** ** The annotation *)
(* ================================================================== *)

(** The text of an annotation for the elements [ys]. *)
Lemma getAnnotationString_spec (w : world) (ii : InputInfo) (xs : list integral) :
  _inputInfo (store w) = Some ii ->
  heap w !! inputSize ii = Some xs ->
  let ys := annotated_tuple (_predictedBatchSize (store w)) xs in
  _getAnnotationString w =
  Ok ("@innpv size (" ++ JS.join ", " ys ++ ")")%string
     {| store := store w;
        heap := <[fresh (dom (heap w)) := ys]> (heap w);
        log := log w;
        checkpoints := checkpoints w |}.
Proof.
  intros Hii Hxs ys. unfold _getAnnotationString.
  rewrite (bind_this_deref _ _ _ _ Hii). cbv zeta.
  unfold array_map_id, bind at 1 2. unfold read_array at 1. rewrite Hxs.
  unfold new_array. rewrite List.map_id.
  unfold bind at 1. unfold this at 1. cbn [store].
  subst ys. destruct (_predictedBatchSize (store w)) as [b|]; cbn [annotated_tuple].
  - unfold bind at 1. unfold array_set_first. cbn [heap store log checkpoints].
    rewrite lookup_insert_eq.
    unfold bind, read_array, ret. cbn [heap store log checkpoints].
    rewrite insert_insert_eq, lookup_insert_eq. reflexivity.
  - unfold bind, read_array, ret. cbn [heap store log checkpoints].
    rewrite lookup_insert_eq. reflexivity.
Qed.

(** A new array takes the place of none. *)
Lemma lookup_insert_fresh (h : gmap loc (list integral)) (ys xs : list integral)
    (l : loc) :
  h !! l = Some xs -> <[fresh (dom h) := ys]> h !! l = Some xs.
Proof.
  intros H. rewrite lookup_insert_ne; [exact H|].
  intros Heq. subst l. pose proof (is_fresh (dom h)) as Hfresh.
  apply Hfresh, elem_of_dom. now exists xs.
Qed.

(** [_getAnnotationString] writes into a copy: the arrays there were are
    as they were. *)
Lemma heap_kept_getAnnotationString : preserves heap_kept _getAnnotationString.
Proof.
  intros w. destruct (_inputInfo (store w)) as [ii|] eqn:Hii.
  - destruct (heap w !! inputSize ii) as [xs|] eqn:Hxs.
    + rewrite (getAnnotationString_spec w ii xs Hii Hxs). simpl.
      intros l zs Hl. simpl. now apply lookup_insert_fresh.
    + unfold _getAnnotationString. rewrite (bind_this_deref _ _ _ _ Hii).
      cbv zeta. unfold array_map_id, bind, read_array. rewrite Hxs.
      simpl. reflexivity.
  - unfold _getAnnotationString. rewrite (bind_this_deref_null _ _ _ Hii).
    simpl. reflexivity.
Qed.

Lemma heap_kept_updateAnnotationInBuffer :
  preserves heap_kept _updateAnnotationInBuffer.
Proof.
  unfold _updateAnnotationInBuffer, setTextInRange. frame;
    try apply heap_kept_getAnnotationString;
    intros w l xs H; exact H.
Qed.

(** No call changes an array that exists. *)
Lemma heap_kept_perform (c : call) : preserves heap_kept (perform c).
Proof.
  destruct c; simpl;
    unfold receivedAnalysis, updateMemoryUsage, updateThroughput,
      updateThroughput_with, clearPredictions, notifyChanged;
    frame;
    try apply heap_kept_updateAnnotationInBuffer;
    intros w l xs H; exact H.
Qed.

Lemma heap_kept_run (cs : list call) (w : world) : heap_kept w (run cs w).
Proof.
  revert w. induction cs as [|c cs IH]; intros w; simpl.
  - reflexivity.
  - etransitivity; [apply heap_kept_perform|apply IH].
Qed.

(** The end that the adjustments and the clear share: the prediction is
    assigned, and [_updateAnnotationInBuffer] throws where it starts, at the
    call of [INNPVStore.getEditor], which is [undefined]. *)
Lemma prediction_then_throw (v : option num) (w : world) :
  bind (set_predictedBatchSize v)
       (fun _ => bind _updateAnnotationInBuffer (fun _ => notifyChanged)) w =
  Throw (after (set_predictedBatchSize v w)).
Proof. reflexivity. Qed.

(** An adjustment or a clear throws: at a [null] info, before it assigns
    anything, or at [INNPVStore.getEditor], once it has assigned
    [_predictedBatchSize] and nothing else. *)
Lemma adjustment_throws (c : call) (w : world) :
  is_adjustment c = true ->
  perform c w = Throw w \/
  exists v, perform c w = Throw (after (set_predictedBatchSize v w)).
Proof.
  destruct c as [ti mi ii|d b|d b|]; cbn [perform is_adjustment];
    intros Hc; try discriminate.
  - unfold updateMemoryUsage.
    destruct (_memoryInfo (store w)) as [mi|] eqn:Hmi.
    + right. rewrite (bind_this_deref _ _ _ _ Hmi). eexists.
      apply prediction_then_throw.
    + left. now rewrite (bind_this_deref_null _ _ _ Hmi).
  - unfold updateThroughput, updateThroughput_with.
    destruct (_throughputInfo (store w)) as [ti|] eqn:Hti.
    + right. rewrite (bind_this_deref _ _ _ _ Hti). cbv zeta.
      unfold bind at 1. unfold this at 1. cbv beta iota.
      destruct (JS.ltb _ _); eexists; apply prediction_then_throw.
    + left. now rewrite (bind_this_deref_null _ _ _ Hti).
  - right. exists None. apply prediction_then_throw.
Qed.

(** C5: [clearPredictions()] sets [predictedBatchSize] to [null] and then
    throws: [_updateAnnotationInBuffer] starts with [INNPVStore.getEditor()],
    which the [INNPVStore] of [innpv_store.js] does not define. No annotation
    is written and no observer is notified: the log and the arrays are as
    they were; the models and [maxBatchSize] stay. The annotation that the
    call was about to write, the one [_getAnnotationString] makes in the
    state it leaves, is the one of the input size as it was received. In the
    scenario, after an analysis and [updateMemoryUsage(0, 100)], which
    predicts 156, the log is still empty after the clear, and that annotation
    is [@innpv size (32, 3, 224, 224)]. *)
Theorem clearPredictions_throws_at_getEditor :
  (forall w : world,
     exists w', clearPredictions w = Throw w' /\
                _predictedBatchSize (store w') = None /\
                log w' = log w /\
                heap w' = heap w /\
                analysis_of (store w') = analysis_of (store w)) /\
  (forall (w : world) (ii : InputInfo) (xs : list integral),
     _inputInfo (store w) = Some ii ->
     heap w !! inputSize ii = Some xs ->
     exists w'',
       _getAnnotationString (after (clearPredictions w)) =
       Ok ("@innpv size (" ++ JS.join ", " xs ++ ")")%string w'') /\
  (let w := after_analysis Scenario.ti_spec Scenario.mi_spec Scenario.ii_spec
              [UpdateMemoryUsage (Fin 0) (Fin 100)] Scenario.w_empty in
   exists p w' w'',
     _predictedBatchSize (store w) = Some p /\
     JS.eqb p (JS.of_Z 156) = true /\
     clearPredictions w = Throw w' /\
     _predictedBatchSize (store w') = None /\
     log w' = [] /\
     _getAnnotationString w' = Ok "@innpv size (32, 3, 224, 224)"%string w'').
Proof.
  split; [|split].
  - intros w. eexists. split; [reflexivity|]. repeat split.
  - intros w ii xs Hii Hxs. eexists.
    change (after (clearPredictions w))
      with (after (set_predictedBatchSize None w)).
    now rewrite (getAnnotationString_spec
                   (after (set_predictedBatchSize None w)) ii xs Hii Hxs).
  - intros w. eexists _, _, _. split; [reflexivity|]. split; [reflexivity|].
    split; [reflexivity|]. split; [reflexivity|]. split; [reflexivity|].
    vm_compute. reflexivity.
Qed.

(** C5, witness: the annotation that the clear was about to write, after the
    scenario's analysis and a throughput adjustment. *)
Lemma clearPredictions_throws_at_getEditor_witness :
  exists w'',
    _getAnnotationString
      (after (clearPredictions
                (after_analysis Scenario.ti_spec Scenario.mi_spec
                   Scenario.ii_spec [UpdateThroughput (Fin 0) (Fin 100)]
                   Scenario.w_empty))) =
    Ok "@innpv size (32, 3, 224, 224)"%string w''.
Proof.
  destruct (proj1 (proj2 clearPredictions_throws_at_getEditor)
              (after_analysis Scenario.ti_spec Scenario.mi_spec
                 Scenario.ii_spec [UpdateThroughput (Fin 0) (Fin 100)]
                 Scenario.w_empty)
              Scenario.ii_spec [Int 32; Int 3; Int 224; Int 224])
    as [w'' Htext].
  - reflexivity.
  - vm_compute. reflexivity.
  - exists w''. rewrite Htext. reflexivity.
Defined.

Global Instance range_set_preorder : PreOrder range_set.
Proof.
  split.
  - intros w H. exact H.
  - intros w1 w2 w3 H12 H23 H. apply H23, H12, H.
Qed.

Lemma agree_range_set {A : Type} (m : M A) :
  preserves (agree _currentAnnotationRange) m -> preserves range_set m.
Proof. intros H w Hr. rewrite <- (H w). exact Hr. Qed.

Lemma range_set_updateAnnotationInBuffer :
  preserves range_set _updateAnnotationInBuffer.
Proof.
  unfold _updateAnnotationInBuffer. frame;
    try solve [apply agree_range_set;
               auto using agree_getAnnotationString, agree_emit,
                 agree_setTextInRange].
  intros w _. now eexists.
Qed.

Lemma range_set_perform (c : call) :
  is_adjustment c = true -> preserves range_set (perform c).
Proof.
  destruct c; simpl; intros Hc; try discriminate;
    unfold updateMemoryUsage, updateThroughput, updateThroughput_with,
      clearPredictions, notifyChanged;
    frame;
    try apply range_set_updateAnnotationInBuffer;
    intros w H; exact H.
Qed.

Lemma range_set_run (cs : list call) (w : world) :
  forallb is_adjustment cs = true -> range_set w (run cs w).
Proof.
  revert w. induction cs as [|c cs IH]; intros w Hcs; simpl in *.
  - reflexivity.
  - apply andb_prop in Hcs as [Hc Hcs].
    etransitivity; [exact (range_set_perform c Hc w)|now apply IH].
Qed.

(** The state that [receivedAnalysis] and the adjustments after it leave:
    an input info, its array and an annotation range. *)
Lemma analysed_state (ti : ThroughputInfo) (mi : MemoryInfo) (ii : InputInfo)
    (cs : list call) (w0 : world) (xs : list integral) :
  forallb is_adjustment cs = true ->
  heap w0 !! inputSize ii = Some xs ->
  let w := after_analysis ti mi ii cs w0 in
  _inputInfo (store w) = Some ii /\
  heap w !! inputSize ii = Some xs /\
  exists r, _currentAnnotationRange (store w) = Some r.
Proof.
  intros Hcs Hxs w.
  destruct (analysis_fields ti mi ii cs w0 Hcs) as (_ & _ & Hii & _).
  split; [exact Hii|]. split.
  - apply heap_kept_run. rewrite receivedAnalysis_spec. exact Hxs.
  - apply (range_set_run cs _ Hcs). rewrite receivedAnalysis_spec.
    simpl. now eexists.
Qed.





(* ================================================================== *)
(** ** The input size is never written *)
(* ================================================================== *)

(** What [a[0] = v] does to the array it is given, the one the heap holds
    at that address. *)
Lemma array_set_first_writes (w : world) (l : loc) (v : integral)
    (xs : list integral) :
  heap w !! l = Some xs ->
  heap (after (array_set_first l v w)) !! l = Some (store_first v xs).
Proof.
  intros H. unfold array_set_first. rewrite H. simpl. apply lookup_insert_eq.
Qed.

(** C9: after an analysis and any sequence of [updateMemoryUsage],
    [updateThroughput] and [clearPredictions] calls, [getInputInfo()]
    returns the input info that was received and its array of dimensions
    holds the elements it held; no further call, and no
    [_getAnnotationString], which writes the rounded prediction into a copy,
    changes them. *)
Theorem inputSize_never_mutated (ti : ThroughputInfo) (mi : MemoryInfo)
    (ii : InputInfo) (cs : list call) (w0 : world) (xs : list integral) :
  forallb is_adjustment cs = true ->
  heap w0 !! inputSize ii = Some xs ->
  getInputInfo (after_analysis ti mi ii cs w0) =
    Ok (Some ii) (after_analysis ti mi ii cs w0) /\
  heap (after_analysis ti mi ii cs w0) !! inputSize ii = Some xs /\
  (forall c, heap (after (perform c (after_analysis ti mi ii cs w0)))
               !! inputSize ii = Some xs) /\
  heap (after (_getAnnotationString (after_analysis ti mi ii cs w0)))
    !! inputSize ii = Some xs.
Proof.
  intros Hcs Hxs.
  destruct (analysed_state ti mi ii cs w0 xs Hcs Hxs) as (Hii & Hheap & _).
  split; [|split; [exact Hheap|split]].
  - unfold getInputInfo, this. now rewrite Hii.
  - intros c. now apply heap_kept_perform.
  - now apply heap_kept_getAnnotationString.
Qed.

(** C9, witness: the scenario's analysis and three adjustments; the array
    at address 0 still holds [(32, 3, 224, 224)]. *)
Lemma inputSize_never_mutated_witness :
  let w := after_analysis Scenario.ti_spec Scenario.mi_spec Scenario.ii_spec
             [UpdateMemoryUsage (Fin 0) (Fin 100);
              UpdateThroughput (Fin (-20)) (Fin 100);
              ClearPredictions] Scenario.w_empty in
  getInputInfo w = Ok (Some Scenario.ii_spec) w /\
  heap w !! 0%nat = Some [Int 32; Int 3; Int 224; Int 224] /\
  (forall c, heap (after (perform c w)) !! 0%nat =
             Some [Int 32; Int 3; Int 224; Int 224]) /\
  heap (after (_getAnnotationString w)) !! 0%nat =
    Some [Int 32; Int 3; Int 224; Int 224].
Proof.
  intros w.
  apply (inputSize_never_mutated Scenario.ti_spec Scenario.mi_spec
           Scenario.ii_spec _ Scenario.w_empty
           [Int 32; Int 3; Int 224; Int 224]).
  - reflexivity.
  - vm_compute. reflexivity.
Defined.

(* ================================================================== *)
(** ** The getters and the frame of the adjustments *)
(* ================================================================== *)

(** C6: [getThroughputModel()] and [getMemoryModel()] return and leave the
    world as it is; each returns [null] when its info is [null], the
    projection of the measured info when there is no prediction, and the
    projection at [predictedBatchSize] when there is one. *)
Theorem getters_are_projections {Throughput Memory : Type}
    (Throughput_fromInfo : ThroughputInfo -> Throughput)
    (Throughput_fromPrediction : ThroughputInfo -> num -> Throughput)
    (Memory_fromInfo : MemoryInfo -> Memory)
    (Memory_fromPrediction : MemoryInfo -> num -> Memory)
    (w : world) :
  getThroughputModel Throughput_fromInfo Throughput_fromPrediction w =
    Ok (match _throughputInfo (store w), _predictedBatchSize (store w) with
        | None, _ => None
        | Some ti, None => Some (Throughput_fromInfo ti)
        | Some ti, Some b => Some (Throughput_fromPrediction ti b)
        end) w /\
  getMemoryModel Memory_fromInfo Memory_fromPrediction w =
    Ok (match _memoryInfo (store w), _predictedBatchSize (store w) with
        | None, _ => None
        | Some mi, None => Some (Memory_fromInfo mi)
        | Some mi, Some b => Some (Memory_fromPrediction mi b)
        end) w.
Proof.
  unfold getThroughputModel, getMemoryModel, bind, this, ret.
  split.
  - destruct (_throughputInfo (store w));
      [destruct (_predictedBatchSize (store w))|]; reflexivity.
  - destruct (_memoryInfo (store w));
      [destruct (_predictedBatchSize (store w))|]; reflexivity.
Qed.

(** C7: whatever [updateMemoryUsage] and [updateThroughput] are given and
    whether they return or throw, [throughputInfo], [memoryInfo],
    [inputInfo] and [maxBatchSize] hold after the call what they held
    before. *)
Theorem adjustments_keep_analysis (d b : num) (w : world) :
  (_throughputInfo (store (after (updateMemoryUsage d b w))) = _throughputInfo (store w) /\
   _memoryInfo (store (after (updateMemoryUsage d b w))) = _memoryInfo (store w) /\
   _inputInfo (store (after (updateMemoryUsage d b w))) = _inputInfo (store w) /\
   _maxBatchSize (store (after (updateMemoryUsage d b w))) = _maxBatchSize (store w)) /\
  (_throughputInfo (store (after (updateThroughput d b w))) = _throughputInfo (store w) /\
   _memoryInfo (store (after (updateThroughput d b w))) = _memoryInfo (store w) /\
   _inputInfo (store (after (updateThroughput d b w))) = _inputInfo (store w) /\
   _maxBatchSize (store (after (updateThroughput d b w))) = _maxBatchSize (store w)).
Proof.
  pose proof (analysis_updateMemoryUsage d b w) as Hm.
  pose proof (analysis_updateThroughput d b w) as Ht.
  unfold agree, analysis_of in Hm, Ht.
  inversion Hm. inversion Ht. repeat split; reflexivity.
Qed.

(* ================================================================== *)
(** ** [INNPVStore]: the state and its listeners *)
(* ================================================================== *)

Section INNPVFacts.

Import INNPV.

Context {AppState : Type}.

Implicit Types (st : @state AppState) (cb : callback) (l : list callback).

Lemma remove_first_In cb cb' l :
  In cb l -> cb <> cb' -> In cb (remove_first cb' l).
Proof.
  intros Hin Hne. induction l as [|x l IH]; simpl in *; [exact Hin|].
  destruct (Nat.eqb x cb') eqn:E.
  - apply Nat.eqb_eq in E. destruct Hin as [Hx|Hin]; [congruence|exact Hin].
  - destruct Hin as [Hx|Hin]; [now left|right; now apply IH].
Qed.

Lemma remove_last_In cb cb' l :
  In cb l -> cb <> cb' -> In cb (remove_last cb' l).
Proof.
  intros Hin Hne. unfold remove_last.
  apply (proj1 (in_rev (remove_first cb' (rev l)) cb)).
  apply remove_first_In; [exact (proj1 (in_rev l cb) Hin)|exact Hne].
Qed.

Lemma listeners_on (event : string) cb (e : gmap string (list callback)) :
  listeners event (on event cb e) = listeners event e ++ [cb].
Proof. unfold on. unfold listeners at 1. now rewrite lookup_insert_eq. Qed.

Lemma listeners_removeListener (event : string) cb
    (e : gmap string (list callback)) :
  listeners event (emitter_removeListener event cb e) =
  remove_last cb (listeners event e).
Proof.
  unfold emitter_removeListener. unfold listeners at 1.
  now rewrite lookup_insert_eq.
Qed.

(** A registered listener stays registered as long as it is not removed. *)
Lemma registered_exec (os : list (@op AppState)) cb st :
  existsb (removes cb) os = false ->
  In cb (listeners UPDATE_EVENT (_emitter (instance st))) ->
  In cb (listeners UPDATE_EVENT (_emitter (instance (exec os st)))).
Proof.
  revert st. induction os as [|o os IH]; intros st Hos Hin; simpl in *.
  - exact Hin.
  - apply orb_false_elim in Hos as [Ho Hos]. apply IH; [exact Hos|].
    destruct o as [s|cb'|cb']; simpl in *.
    + exact Hin.
    + rewrite listeners_on. apply in_or_app. now left.
    + rewrite listeners_removeListener. apply remove_last_In; [exact Hin|].
      apply Nat.eqb_neq in Ho. congruence.
Qed.

Lemma exec_app (os1 os2 : list (@op AppState)) st :
  exec (os1 ++ os2) st = exec os2 (exec os1 st).
Proof.
  revert st. induction os1 as [|o os1 IH]; intros st; simpl; [reflexivity|].
  apply IH.
Qed.

(** C10: after [setAppState(s)], [getAppState()] returns [s]; the call
    emits one ['updated'] event, to the listeners registered at that
    moment and in the order of their registration, among them every
    callback given to [addListener] and not to [removeListener] since. *)
Theorem setAppState_notifies (os1 os2 : list (@op AppState)) cb
    (s : AppState) st :
  existsb (removes cb) os2 = false ->
  getAppState (setAppState s (exec (os1 ++ AddListener cb :: os2) st)) = s /\
  emitted (setAppState s (exec (os1 ++ AddListener cb :: os2) st)) =
    emitted (exec (os1 ++ AddListener cb :: os2) st) ++
    [(UPDATE_EVENT,
      listeners UPDATE_EVENT
        (_emitter (instance (exec (os1 ++ AddListener cb :: os2) st))))] /\
  In cb (listeners UPDATE_EVENT
           (_emitter (instance (exec (os1 ++ AddListener cb :: os2) st)))) /\
  _emitter (instance (setAppState s (exec (os1 ++ AddListener cb :: os2) st))) =
    _emitter (instance (exec (os1 ++ AddListener cb :: os2) st)).
Proof.
  intros Hos. split; [reflexivity|]. split; [reflexivity|].
  split; [|reflexivity].
  rewrite exec_app. simpl exec. apply registered_exec; [exact Hos|].
  simpl. rewrite listeners_on. apply in_or_app. right. now left.
Qed.

End INNPVFacts.

(** C10, witness: the listeners 1, 2 and 1 again are added, 2 is removed
    and 3 added; [setAppState] then reaches 1, 1 and 3, in this order. *)
Lemma setAppState_notifies_witness :
  let st0 := {| INNPV.instance := INNPV.constructor 0%nat; INNPV.emitted := [] |} in
  let os1 := [INNPV.AddListener 1%nat; INNPV.AddListener 2%nat] in
  let os2 := [INNPV.RemoveListener 2%nat; INNPV.AddListener 3%nat] in
  let st := INNPV.exec (os1 ++ INNPV.AddListener 1%nat :: os2) st0 in
  INNPV.getAppState (INNPV.setAppState 7%nat st) = 7%nat /\
  INNPV.emitted (INNPV.setAppState 7%nat st) =
    [(INNPV.UPDATE_EVENT, [1%nat; 1%nat; 3%nat])] /\
  In 1%nat (INNPV.listeners INNPV.UPDATE_EVENT (INNPV._emitter (INNPV.instance st))).
Proof.
  intros st0 os1 os2 st.
  destruct (setAppState_notifies os1 os2 1%nat 7%nat st0) as (Hs & He & Hin & _).
  - reflexivity.
  - split; [exact Hs|]. split; [|exact Hin].
    vm_compute. reflexivity.
Defined.

(* ================================================================== *)
(** ** Before and after an analysis *)
(* ================================================================== *)

(** X1: on a store that has received no analysis (the one the constructor
    leaves), every adjustment and every clear throws, and any sequence of
    them leaves the store, the arrays and the log as they were: nothing is
    written to the buffer and no observer is notified. *)
Theorem adjustments_before_analysis_are_inert (cs : list call) (w : world) :
  store w = constructor ->
  forallb is_adjustment cs = true ->
  run cs w = w /\
  Forall (fun c => exists w', perform c w = Throw w') cs.
Proof.
  intros Hs. destruct w as [s h l k]. simpl in Hs. subst s.
  induction cs as [|c cs IH]; intros Hcs; simpl in *.
  - split; [reflexivity|constructor].
  - apply andb_prop in Hcs as [Hc Hcs].
    assert (Hthrow : perform c {| store := constructor; heap := h; log := l;
                                  checkpoints := k |} =
                     Throw {| store := constructor; heap := h; log := l;
                              checkpoints := k |}).
    { destruct c; try discriminate Hc; reflexivity. }
    rewrite Hthrow. simpl after. destruct (IH Hcs) as [Hrun Hall].
    split; [exact Hrun|]. constructor; [|exact Hall].
    eexists. exact Hthrow.
Qed.

(** X1, witness: three calls on the fresh store of the scenarios. *)
Lemma adjustments_before_analysis_are_inert_witness :
  run [UpdateMemoryUsage (Fin 0) (Fin 100); ClearPredictions;
       UpdateThroughput (Fin 10) (Fin 90)] Scenario.w_empty = Scenario.w_empty /\
  Forall (fun c => exists w', perform c Scenario.w_empty = Throw w')
    [UpdateMemoryUsage (Fin 0) (Fin 100); ClearPredictions;
     UpdateThroughput (Fin 10) (Fin 90)].
Proof.
  apply (adjustments_before_analysis_are_inert _ Scenario.w_empty);
    reflexivity.
Defined.

(** A field that neither the prediction nor the range assignment touches
    is kept by every adjustment. *)
Lemma agree_perform {A : Type} (f : BatchSizeStore -> A) (c : call) :
  (forall v, preserves (agree f) (set_predictedBatchSize v)) ->
  (forall v, preserves (agree f) (set_currentAnnotationRange v)) ->
  is_adjustment c = true ->
  preserves (agree f) (perform c).
Proof.
  intros Hp Hr Hc. destruct c; try discriminate Hc; simpl;
    unfold updateMemoryUsage, updateThroughput, updateThroughput_with, clearPredictions, notifyChanged;
    frame; auto using agree_updateAnnotationInBuffer, agree_emit.
Qed.

(** X2: with the [INNPVStore] of [innpv_store.js], which defines no
    [getEditor], every call of the store throws: [receivedAnalysis] once it
    has assigned the analysis, the others at a [null] info or once they have
    assigned the prediction. No call adds an effect (no checkpoint, no write
    to the buffer, no notification of the observers), changes an array or
    assigns [_currentUndoCheckpoint]. *)
Theorem calls_throw_before_any_effect (c : call) (w : world) :
  exists w', perform c w = Throw w' /\
             log w' = log w /\
             heap w' = heap w /\
             checkpoints w' = checkpoints w /\
             _currentUndoCheckpoint (store w') =
               _currentUndoCheckpoint (store w).
Proof.
  destruct (is_adjustment c) eqn:Hc.
  - destruct (adjustment_throws c w Hc) as [H|(v & H)]; rewrite H;
      eexists; (split; [reflexivity|]); repeat split.
  - destruct c as [ti mi ii| | |]; try discriminate Hc. simpl perform.
    rewrite receivedAnalysis_spec. eexists. split; [reflexivity|].
    repeat split.
Qed.

(* ================================================================== *)
(** ** The sliders *)
(* ================================================================== *)

Section Sliders.

Local Open Scope Q_scope.

Ltac qbool :=
  repeat match goal with
         | H : Qle_bool _ _ = true |- _ => apply Qle_bool_iff in H
         | H : Qle_bool _ _ = false |- _ => apply Qle_bool_false in H
         | |- Qle_bool _ _ = true => apply Qle_bool_iff
         | |- Qeq_bool _ _ = true => apply Qeq_bool_iff
         end.

Ltac qminmax :=
  repeat match goal with
         | |- context [Qmax ?x ?y] =>
             let H := fresh in
             destruct (Q.max_spec x y) as [[? H]|[? H]];
             revert H; generalize (Qmax x y); intros
         | |- context [Qmin ?x ?y] =>
             let H := fresh in
             destruct (Q.min_spec x y) as [[? H]|[? H]];
             revert H; generalize (Qmin x y); intros
         | H0 : context [Qmax ?x ?y] |- _ =>
             let H := fresh in
             destruct (Q.max_spec x y) as [[? H]|[? H]];
             revert H; revert H0; generalize (Qmax x y); intros
         | H0 : context [Qmin ?x ?y] |- _ =>
             let H := fresh in
             destruct (Q.min_spec x y) as [[? H]|[? H]];
             revert H; revert H0; generalize (Qmin x y); intros
         end.

(** The usage target as a rational: the percentage of the capacity, capped
    at the capacity. *)
Lemma updatedUsage_value (mi : MemoryInfo) (d b : Q) :
  exists u, updatedUsage mi (Fin d) (Fin b) = Fin u /\
            u == Qmin ((b + d) / 100 * maxCapacityMb mi) (maxCapacityMb mi).
Proof.
  unfold updatedUsage. cbv zeta. simpl JS.add.
  unfold JS.of_Z. rewrite (div_Fin _ _ hundred_not_zero). simpl JS.mul.
  change (inject_Z 100) with 100.
  unfold JS.Math_min, JS.leb.
  destruct (Qle_bool _ _) eqn:E; qbool;
    (eexists; split; [reflexivity|]).
  - symmetry. now apply Q.min_l.
  - symmetry. apply Q.min_r. lra.
Qed.

(** The throughput target as a rational: the percentage of the measured
    throughput, capped at the limit and raised to zero. *)
Lemma updatedThroughput_value (ti : ThroughputInfo) (d b : Q) :
  exists t, updatedThroughput ti (Fin d) (Fin b) = Fin t /\
            t == Qmax (Qmin ((b + d) / 100 * maxThroughput ti)
                            (throughputLimit ti)) 0.
Proof.
  unfold updatedThroughput. cbv zeta. simpl JS.add.
  unfold JS.of_Z. rewrite (div_Fin _ _ hundred_not_zero). simpl JS.mul.
  change (inject_Z 100) with 100. change (inject_Z 0) with 0.
  unfold JS.Math_min at 1. unfold JS.leb at 1.
  destruct (Qle_bool _ _) eqn:E1;
    unfold JS.Math_max, JS.leb;
    match goal with
    | |- context [Qle_bool ?x ?y] => destruct (Qle_bool x y) eqn:E2
    end;
    qbool; (eexists; split; [reflexivity|]); qminmax; lra.
Qed.




(** The inversion of a throughput that is not at the asymptote. *)
Lemma getBatchSizeFromThroughput_Fin (model : LinearModel) (t : Q) :
  ~ slope model * t == 1000 ->
  getBatchSizeFromThroughput model (Fin t) =
  Fin (intercept model * t / (1000 + - (slope model * t))).
Proof.
  intros H. unfold getBatchSizeFromThroughput. simpl JS.mul.
  unfold JS.of_Z. simpl JS.sub. change (inject_Z 1000) with 1000.
  apply div_Fin. lra.
Qed.






(** X7: with a usage model of positive slope in which one sample takes no
    negative memory ([slope + intercept >= 0]) and a positive capacity,
    [updateMemoryUsage] with finite percentages and
    [basePct + deltaPct <= 0] leaves the prediction 1: the usage aimed at is
    not positive, and its inversion is under the lower clamp. *)
Theorem updateMemoryUsage_floor (w : world) (mi : MemoryInfo) (d b : Q) :
  _memoryInfo (store w) = Some mi ->
  0 < slope (usageModelMb mi) ->
  0 <= slope (usageModelMb mi) + intercept (usageModelMb mi) ->
  0 < maxCapacityMb mi ->
  b + d <= 0 ->
  _predictedBatchSize (store (after (updateMemoryUsage (Fin d) (Fin b) w))) =
    Some (JS.of_Z 1).
Proof.
  intros Hmi Hs Hone Hcap Hpct.
  rewrite (updateMemoryUsage_predicted _ mi _ _ Hmi).
  destruct (updatedUsage_value mi d b) as (u & -> & Hu).
  rewrite (getBatchSizeFromUsage_Fin _ _ Hs).
  unfold JS.Math_max, JS.leb, JS.of_Z. change (inject_Z 1) with 1.
  assert (Hle : (u + - intercept (usageModelMb mi)) / slope (usageModelMb mi) <= 1).
  { apply Qle_shift_div_r; [exact Hs|].
    assert (Hu' : u <= (b + d) / 100 * maxCapacityMb mi)
      by (rewrite Hu; apply Q.le_min_l).
    assert (Hx : (b + d) / 100 <= 0) by (apply Qle_shift_div_r; lra).
    nra. }
  apply Qle_bool_iff in Hle. now rewrite Hle.
Qed.

(** X7, witness: no percent at all on the scenario's model. *)
Lemma updateMemoryUsage_floor_witness :
  _predictedBatchSize
    (store (after (updateMemoryUsage (Fin (-100)) (Fin 100)
                     (after_analysis Scenario.ti_spec Scenario.mi_spec
                        Scenario.ii_spec [] Scenario.w_empty)))) =
  Some (JS.of_Z 1).
Proof.
  apply (updateMemoryUsage_floor _ Scenario.mi_spec (-100) 100).
  - reflexivity.
  - reflexivity.
  - discriminate.
  - reflexivity.
  - discriminate.
Defined.



(** X9: with a runtime model of positive slope and an intercept that is
    not negative, and a throughput limit below the asymptote
    [1000 / slope], no [updateThroughput] with finite percentages takes the
    overflow substitution: the batch size that [getBatchSizeFromThroughput]
    returns for the clamped target is not negative, and the prediction is
    its clamp, [Math.max(Math.min(throughputBatchSize, maxBatchSize), 1)]. *)
Theorem updateThroughput_below_limit (w : world) (ti : ThroughputInfo)
    (d b : Q) :
  _throughputInfo (store w) = Some ti ->
  0 < slope (runtimeModelMs ti) ->
  0 <= intercept (runtimeModelMs ti) ->
  slope (runtimeModelMs ti) * throughputLimit ti < 1000 ->
  let throughputBatchSize :=
    getBatchSizeFromThroughput (runtimeModelMs ti)
                               (updatedThroughput ti (Fin d) (Fin b)) in
  JS.ltb throughputBatchSize (JS.of_Z 0) = false /\
  _predictedBatchSize (store (after (updateThroughput (Fin d) (Fin b) w))) =
    Some (JS.Math_max
            (JS.Math_min throughputBatchSize
                         (JS.ToNumber (_maxBatchSize (store w))))
            (JS.of_Z 1)).
Proof.
  intros Hti Hs Hi Hlim tb.
  assert (Hl : JS.ltb tb (JS.of_Z 0) = false).
  { subst tb. destruct (updatedThroughput_value ti d b) as (t & -> & Ht).
    assert (Hrange : 0 <= t /\ slope (runtimeModelMs ti) * t < 1000).
    { rewrite Ht. generalize ((b + d) / 100 * maxThroughput ti). intros x.
      split; qminmax; nra. }
    destruct Hrange as [Ht0 Hst].
    rewrite getBatchSizeFromThroughput_Fin by lra.
    apply Qltb_false. change (inject_Z 0) with 0.
    apply Qle_shift_div_l; [lra|nra]. }
  split; [exact Hl|].
  rewrite (updateThroughput_predicted _ ti _ _ Hti). cbv zeta.
  fold tb. now rewrite Hl.
Qed.

(** X9, witness: the scenario's runtime model, whose limit 450 is below the
    asymptote 500, with the slider at 300 percent. *)
Lemma updateThroughput_below_limit_witness :
  let w := after_analysis Scenario.ti_spec Scenario.mi_spec Scenario.ii_spec
             [] Scenario.w_empty in
  let throughputBatchSize :=
    getBatchSizeFromThroughput (runtimeModelMs Scenario.ti_spec)
      (updatedThroughput Scenario.ti_spec (Fin 200) (Fin 100)) in
  JS.ltb throughputBatchSize (JS.of_Z 0) = false /\
  _predictedBatchSize (store (after (updateThroughput (Fin 200) (Fin 100) w))) =
    Some (JS.Math_max
            (JS.Math_min throughputBatchSize
                         (JS.ToNumber (_maxBatchSize (store w))))
            (JS.of_Z 1)).
Proof.
  intros w.
  apply (updateThroughput_below_limit w Scenario.ti_spec 200 100).
  - reflexivity.
  - reflexivity.
  - discriminate.
  - reflexivity.
Defined.




End Sliders.

(* ================================================================== *)
(** ** Predictions, projections and the annotation over a session *)
(* ================================================================== *)

(** [clearPredictions] leaves no prediction, also when it throws. *)
Lemma clearPredictions_predicted (w : world) :
  _predictedBatchSize (store (after (clearPredictions w))) = None.
Proof.
  unfold clearPredictions. unfold bind at 1.
  unfold set_predictedBatchSize at 1, with_store at 1. cbv beta iota.
  symmetry.
  lazymatch goal with
  | |- _ = _predictedBatchSize (store (after (_ ?w1))) => exact (predicted_tail w1)
  end.
Qed.

(** X11: predictions do not compound. After an analysis, the prediction
    that an adjustment or a clear leaves is the one it would leave right
    after the analysis, whatever adjustments came in between. *)
Theorem predictions_do_not_compound (ti : ThroughputInfo) (mi : MemoryInfo)
    (ii : InputInfo) (cs : list call) (w0 : world) (c : call) :
  forallb is_adjustment cs = true ->
  is_adjustment c = true ->
  _predictedBatchSize
    (store (after (perform c (after_analysis ti mi ii cs w0)))) =
  _predictedBatchSize
    (store (after (perform c (after_analysis ti mi ii [] w0)))).
Proof.
  intros Hcs Hc.
  destruct (analysis_fields ti mi ii cs w0 Hcs) as (Hti & Hmi & _ & Hmax).
  destruct (analysis_fields ti mi ii [] w0 eq_refl) as (Hti0 & Hmi0 & _ & Hmax0).
  destruct c as [? ? ?|d b|d b|]; try discriminate Hc; simpl perform.
  - now rewrite (updateMemoryUsage_predicted _ mi d b Hmi),
      (updateMemoryUsage_predicted _ mi d b Hmi0).
  - rewrite (updateThroughput_predicted _ ti d b Hti),
      (updateThroughput_predicted _ ti d b Hti0).
    cbv zeta. now rewrite Hmax, Hmax0.
  - now rewrite !clearPredictions_predicted.
Qed.

(** X11, witness: a throughput adjustment after two other calls. *)
Lemma predictions_do_not_compound_witness :
  _predictedBatchSize
    (store (after (perform (UpdateThroughput (Fin 0) (Fin 100))
                     (after_analysis Scenario.ti_spec Scenario.mi_spec
                        Scenario.ii_spec
                        [UpdateMemoryUsage (Fin 0) (Fin 50); ClearPredictions]
                        Scenario.w_empty)))) =
  _predictedBatchSize
    (store (after (perform (UpdateThroughput (Fin 0) (Fin 100))
                     (after_analysis Scenario.ti_spec Scenario.mi_spec
                        Scenario.ii_spec [] Scenario.w_empty)))).
Proof.
  apply (predictions_do_not_compound Scenario.ti_spec Scenario.mi_spec
           Scenario.ii_spec
           [UpdateMemoryUsage (Fin 0) (Fin 50); ClearPredictions]
           Scenario.w_empty (UpdateThroughput (Fin 0) (Fin 100)));
    reflexivity.
Defined.

(** X12: over a session the two getters follow the prediction together.
    After [clearPredictions] both return the projection of the measured
    info; after [updateMemoryUsage] or [updateThroughput] both return the
    projection at one and the same prediction, the one the call left. *)
Theorem getters_follow_prediction {Throughput Memory : Type}
    (Throughput_fromInfo : ThroughputInfo -> Throughput)
    (Throughput_fromPrediction : ThroughputInfo -> num -> Throughput)
    (Memory_fromInfo : MemoryInfo -> Memory)
    (Memory_fromPrediction : MemoryInfo -> num -> Memory)
    (ti : ThroughputInfo) (mi : MemoryInfo) (ii : InputInfo)
    (cs : list call) (w0 : world) (c : call) :
  forallb is_adjustment cs = true ->
  is_adjustment c = true ->
  let w' := after (perform c (after_analysis ti mi ii cs w0)) in
  (c = ClearPredictions ->
   getThroughputModel Throughput_fromInfo Throughput_fromPrediction w' =
     Ok (Some (Throughput_fromInfo ti)) w' /\
   getMemoryModel Memory_fromInfo Memory_fromPrediction w' =
     Ok (Some (Memory_fromInfo mi)) w') /\
  (c <> ClearPredictions ->
   exists p,
     _predictedBatchSize (store w') = Some p /\
     getThroughputModel Throughput_fromInfo Throughput_fromPrediction w' =
       Ok (Some (Throughput_fromPrediction ti p)) w' /\
     getMemoryModel Memory_fromInfo Memory_fromPrediction w' =
       Ok (Some (Memory_fromPrediction mi p)) w').
Proof.
  intros Hcs Hc w'.
  destruct (analysis_fields ti mi ii cs w0 Hcs) as (Hti & Hmi & _ & Hmax).
  pose proof (agree_perform analysis_of c analysis_set_predictedBatchSize
                (fun v w => eq_refl) Hc (after_analysis ti mi ii cs w0))
    as Hframe.
  unfold agree, analysis_of in Hframe. fold w' in Hframe.
  inversion Hframe as [[H1 H2 H3 H4]].
  assert (Hti' : _throughputInfo (store w') = Some ti) by congruence.
  assert (Hmi' : _memoryInfo (store w') = Some mi) by congruence.
  unfold getThroughputModel, getMemoryModel, bind, this, ret.
  rewrite Hti', Hmi'. split.
  - intros ->. subst w'. simpl perform.
    rewrite clearPredictions_predicted. split; reflexivity.
  - intros Hne.
    assert (Hp : exists p, _predictedBatchSize (store w') = Some p).
    { subst w'. destruct c as [? ? ?|d b|d b|];
        try discriminate Hc; try congruence; simpl perform.
      - rewrite (updateMemoryUsage_predicted _ mi d b Hmi). now eexists.
      - rewrite (updateThroughput_predicted _ ti d b Hti). cbv zeta.
        rewrite Hmax. destruct (JS.ltb _ _); now eexists. }
    destruct Hp as (p & Hp). exists p. rewrite Hp.
    split; [reflexivity|]. split; reflexivity.
Qed.

(** X12, witness: the getters after [updateMemoryUsage(0, 100)] on the
    scenario, with the pair of the model and the prediction as projection. *)
Lemma getters_follow_prediction_witness :
  let w' := after (perform (UpdateMemoryUsage (Fin 0) (Fin 100))
                     (after_analysis Scenario.ti_spec Scenario.mi_spec
                        Scenario.ii_spec [] Scenario.w_empty)) in
  exists p,
    _predictedBatchSize (store w') = Some p /\
    getThroughputModel (fun ti => (ti, None)) (fun ti b => (ti, Some b)) w' =
      Ok (Some (Scenario.ti_spec, Some p)) w' /\
    getMemoryModel (fun mi => (mi, None)) (fun mi b => (mi, Some b)) w' =
      Ok (Some (Scenario.mi_spec, Some p)) w'.
Proof.
  intros w'.
  apply (getters_follow_prediction
           (fun ti => (ti, None)) (fun ti b => (ti, Some b))
           (fun mi => (mi, None)) (fun mi b => (mi, Some b))
           Scenario.ti_spec Scenario.mi_spec Scenario.ii_spec []
           Scenario.w_empty (UpdateMemoryUsage (Fin 0) (Fin 100))).
  - reflexivity.
  - reflexivity.
  - discriminate.
Defined.

(** X13: the annotation of an empty input size. Without a prediction the
    text is [@innpv size ()]; with one, the assignment to index 0 grows the
    copy and the text holds the rounded prediction alone. The array of the
    input info stays empty. *)
Theorem annotation_of_empty_input_size (w : world) (ii : InputInfo) :
  _inputInfo (store w) = Some ii ->
  heap w !! inputSize ii = Some [] ->
  exists w',
    _getAnnotationString w =
      Ok (match _predictedBatchSize (store w) with
          | Some b => ("@innpv size (" ++ JS.toString (JS.Math_round b) ++ ")")%string
          | None => "@innpv size ()"%string
          end) w' /\
    heap w' !! inputSize ii = Some [].
Proof.
  intros Hii Hxs.
  pose proof (heap_kept_getAnnotationString w _ _ Hxs) as Hkept.
  rewrite (getAnnotationString_spec w ii [] Hii Hxs) in *.
  eexists. split; [|exact Hkept].
  destruct (_predictedBatchSize (store w)); reflexivity.
Qed.

(** X13, witness: an input info without dimensions and the prediction
    2.5. *)
Lemma annotation_of_empty_input_size_witness :
  let w := {| store :=
                {| _throughputInfo := None; _memoryInfo := None;
                   _inputInfo := Some Scenario.ii_spec;
                   _predictedBatchSize := Some (Fin (5 # 2));
                   _maxBatchSize := None;
                   _currentAnnotationRange := None;
                   _currentUndoCheckpoint := None |};
              heap := {[ 0%nat := [] ]}; log := []; checkpoints := 0 |} in
  exists w',
    _getAnnotationString w = Ok "@innpv size (3)"%string w' /\
    heap w' !! 0%nat = Some [].
Proof.
  intros w.
  apply (annotation_of_empty_input_size w Scenario.ii_spec).
  - reflexivity.
  - vm_compute. reflexivity.
Defined.

Section Degenerate.

Local Open Scope Q_scope.



End Degenerate.

(* ================================================================== *)
(** ** [INNPVStore]: registrations and emissions *)
(* ================================================================== *)

Section INNPVRegistrations.

Import INNPV.

Context {AppState : Type}.

Implicit Types (st : @state AppState) (cb : callback) (l : list callback).

Lemma remove_first_head cb l : remove_first cb (cb :: l) = l.
Proof. simpl. now rewrite Nat.eqb_refl. Qed.

Lemma remove_last_snoc cb l : remove_last cb (l ++ [cb]) = l.
Proof.
  unfold remove_last. rewrite List.rev_app_distr.
  change (rev [cb] ++ rev l) with (cb :: rev l).
  rewrite remove_first_head. apply List.rev_involutive.
Qed.

Lemma remove_first_absent cb l : ~ In cb l -> remove_first cb l = l.
Proof.
  induction l as [|x l IH]; simpl; intros Hnot; [reflexivity|].
  destruct (Nat.eqb x cb) eqn:E.
  - apply Nat.eqb_eq in E. exfalso. apply Hnot. now left.
  - f_equal. apply IH. intros Hin. apply Hnot. now right.
Qed.

Lemma count_occ_remove_first cb cb' l :
  count_occ Nat.eq_dec (remove_first cb l) cb' =
  if Nat.eqb cb' cb then Nat.pred (count_occ Nat.eq_dec l cb')
  else count_occ Nat.eq_dec l cb'.
Proof.
  induction l as [|x l IH]; simpl.
  - now destruct (Nat.eqb cb' cb).
  - destruct (Nat.eqb x cb) eqn:Ex.
    + apply Nat.eqb_eq in Ex. subst x.
      destruct (Nat.eq_dec cb cb') as [->|Hne].
      * now rewrite Nat.eqb_refl.
      * destruct (Nat.eqb cb' cb) eqn:E; [|reflexivity].
        apply Nat.eqb_eq in E. congruence.
    + simpl. destruct (Nat.eq_dec x cb') as [->|Hne].
      * rewrite IH, Ex. reflexivity.
      * exact IH.
Qed.

(** X17: [addListener(cb)] followed by [removeListener(cb)] leaves the
    listeners of ['updated'] as they were, in number and in order, whether or
    not [cb] was registered before; the state and the emissions are not
    touched. *)
Theorem addListener_removeListener cb st :
  listeners UPDATE_EVENT
    (_emitter (instance (removeListener cb (addListener cb st)))) =
    listeners UPDATE_EVENT (_emitter (instance st)) /\
  getAppState (removeListener cb (addListener cb st)) = getAppState st /\
  emitted (removeListener cb (addListener cb st)) = emitted st.
Proof.
  split; [|split; reflexivity].
  simpl. unfold emitter_removeListener, on.
  unfold listeners at 1. rewrite lookup_insert_eq. simpl.
  unfold listeners at 1. rewrite lookup_insert_eq. simpl.
  apply remove_last_snoc.
Qed.

(** X18: [removeListener(cb)] drops one registration of [cb] at most: the
    number of registrations of [cb] goes down by one (staying 0 when there
    is none, the listeners then being exactly as before), and the number of
    registrations of every other callback is unchanged. *)
Theorem removeListener_one_registration cb cb' st :
  let before := listeners UPDATE_EVENT (_emitter (instance st)) in
  let after_ := listeners UPDATE_EVENT
                  (_emitter (instance (removeListener cb st))) in
  count_occ Nat.eq_dec after_ cb' =
    (if Nat.eqb cb' cb then Nat.pred (count_occ Nat.eq_dec before cb')
     else count_occ Nat.eq_dec before cb') /\
  (~ In cb before -> after_ = before).
Proof.
  intros before after_. subst after_. simpl.
  unfold emitter_removeListener. unfold listeners at 1 3.
  rewrite lookup_insert_eq. simpl. fold before. split.
  - unfold remove_last.
    rewrite List.count_occ_rev, count_occ_remove_first, List.count_occ_rev.
    reflexivity.
  - intros Hnot. unfold remove_last.
    rewrite remove_first_absent by (now rewrite <- List.in_rev).
    apply List.rev_involutive.
Qed.

(** X19: over any sequence of [setAppState], [addListener] and
    [removeListener] calls, [getAppState()] ends as the argument of the last
    [setAppState] (the initial state when there is none), and the emissions
    grow by one ['updated'] event per [setAppState] and by nothing else. *)
Theorem exec_state_and_emissions (os : list (@op AppState)) st :
  getAppState (exec os st) = last_set os (getAppState st) /\
  exists new,
    emitted (exec os st) = emitted st ++ new /\
    length new = length (List.filter is_set os) /\
    Forall (fun e => fst e = UPDATE_EVENT) new.
Proof.
  revert st. induction os as [|o os IH]; intros st; simpl.
  - split; [reflexivity|]. exists []. rewrite List.app_nil_r.
    repeat split. constructor.
  - destruct (IH (step o st)) as (Hs & new & He & Hn & Hall).
    rewrite Hs, He. destruct o as [s|cb|cb]; simpl.
    + split; [reflexivity|].
      eexists (_ :: new). rewrite <- List.app_assoc. simpl.
      split; [reflexivity|]. split; [now rewrite Hn|].
      constructor; [reflexivity|exact Hall].
    + split; [reflexivity|]. exists new. repeat split; assumption.
    + split; [reflexivity|]. exists new. repeat split; assumption.
Qed.

End INNPVRegistrations.

(** X18, witness: nothing registered, a removal changes nothing. *)
Lemma removeListener_one_registration_witness :
  let st := {| INNPV.instance := INNPV.constructor 0%nat; INNPV.emitted := [] |} in
  INNPV.listeners INNPV.UPDATE_EVENT
    (INNPV._emitter (INNPV.instance (INNPV.removeListener 5%nat st))) =
  INNPV.listeners INNPV.UPDATE_EVENT (INNPV._emitter (INNPV.instance st)).
Proof.
  intros st.
  apply (proj2 (removeListener_one_registration 5%nat 5%nat st)).
  intros H. exact H.
Defined.
